(** * ExtensionDependencyChecker

    A shallow embedding of
    [vs/workbench/contrib/extensions/electron-browser/extensionsDependencyChecker.ts]
    and the properties of its four methods and of the contribution as a whole.

    The class talks to five injected services.  Every call to a service is a
    node of a small program tree ([prog]); a host answers the calls.  One call
    of a method is run against a host with explicit state ([run]); the whole
    contribution, with its overlapping asynchronous activations, is a step
    relation on a pool of suspended programs ([step]). *)

From Stdlib Require Import String Ascii List Bool Arith Lia.
From ExtLib Require Import Structures.Monad.
Import ListNotations.
Import MonadNotation.
Local Open Scope string_scope.
Local Open Scope list_scope.
Local Open Scope monad_scope.

Set Implicit Arguments.

(** ** Data model *)

(** [ExtensionIdentifier]: the identifier of a running extension; the source
    reads its [value]. *)
Module ExtensionIdentifier.
Record t : Type := Build { value : string }.
End ExtensionIdentifier.

(** [IExtensionDescription]: what [IExtensionService.getExtensions] yields.
    [extensionDependencies?: string[]] is optional: [None] is [undefined]. *)
Module IExtensionDescription.
Record t : Type := Build {
  identifier : ExtensionIdentifier.t;
  extensionDependencies : option (list string)
}.
End IExtensionDescription.

(** [IExtensionIdentifier]: [{ id: string, uuid?: string }]. *)
Module IExtensionIdentifier.
Record t : Type := Build { id : string; uuid : option string }.
End IExtensionIdentifier.

(** [IExtension] of the extensions workbench service (local or gallery). *)
Module IExtension.
Record t : Type := Build {
  identifier : IExtensionIdentifier.t;
  version : string
}.
End IExtension.

(** [IPager<IExtension>]: the source reads [firstPage] only. *)
Module IPager.
Record t : Type := Build {
  firstPage : list IExtension.t;
  total : nat;
  pageSize : nat
}.
End IPager.

(** [IQueryOptions] as the source builds it: [{ names, pageSize }]. *)
Module IQueryOptions.
Record t : Type := Build { names : list string; pageSize : nat }.
End IQueryOptions.

Inductive Severity : Type := Ignore | Info | Warning | Error.

(** What an action does when it is run.  The only callback of the source is
    [() => this.windowService.reloadWindow()]. *)
Inductive Callback : Type := CallReloadWindow.

(** [new Action(id, label, cssClass, enabled, actionCallback)]. *)
Module Action.
Record t : Type := Build {
  id : string;
  label : string;
  cssClass : string;
  enabled : bool;
  actionCallback : Callback
}.
End Action.

(** [INotification]: [{ severity, message, actions: { primary } }]. *)
Module INotification.
Record t : Type := Build {
  severity : Severity;
  message : string;
  primary : list Action.t
}.
End INotification.

(** Reasons of a rejection or of a throw. *)
Inductive Failure : Type :=
| TypeError (what : string)
| ServiceFailure (reason : string).

(** A promise returned by a service and awaited at once. *)
Inductive Promised (A : Type) : Type :=
| Fulfilled (a : A)
| Rejected (e : Failure)
| NeverSettles.
Arguments Rejected {A} e.
Arguments NeverSettles {A}.

(** ** The JavaScript [Set<string>]

    Insertion ordered, no duplicates, compared with [===]. *)
Module JsSet.
Definition t : Type := list string.
Definition empty : t := [].
Definition has (x : string) (s : t) : bool := existsb (String.eqb x) s.
Definition add (x : string) (s : t) : t := if has x s then s else s ++ [x].
End JsSet.

(** Modelled from the spec: [values] of [vs/base/common/map] is not among the
    sources; it turns the set into the sequence of its elements. *)
Definition values (s : JsSet.t) : list string := s.

(** ** Service calls

    [Install] hands back the promise of the installation without waiting for
    it; [AwaitAll] is [await Promise.all(promises)], answered with the order
    in which promises settle. *)
Definition PromiseId : Type := nat.

Inductive Settlement : Type :=
| Resolves
| Rejects (e : Failure).

Definition Timeline : Type := list (PromiseId * Settlement).

Inductive ServiceCall : Type -> Type :=
| GetExtensions : ServiceCall (Promised (list IExtensionDescription.t))
| QueryLocal : ServiceCall (Promised (list IExtension.t))
| QueryGallery (options : IQueryOptions.t) : ServiceCall (Promised IPager.t)
| Install (extension : IExtension.t) : ServiceCall PromiseId
| AwaitAll (promises : list PromiseId) : ServiceCall Timeline
| GetValue (key : string) : ServiceCall bool
| Notify (notification : INotification.t) : ServiceCall unit
| NotifyInfo (message : string) : ServiceCall unit
| ReloadWindow : ServiceCall unit.

(** ** Programs *)

(** An asynchronous method body: it returns, throws (its promise rejects),
    stays suspended at an [await] for ever, calls a service and goes on with
    the answer, or starts another method without awaiting it. *)
Inductive prog (A : Type) : Type :=
| Ret (a : A)
| Throw (e : Failure)
| Hang
| Vis (X : Type) (c : ServiceCall X) (k : X -> prog A)
| Spawn (child : prog unit) (k : prog A).
Arguments Throw {A} e.
Arguments Hang {A}.
Arguments Vis {A X} c k.
Arguments Spawn {A} child k.

Fixpoint pbind {A B : Type} (m : prog A) (f : A -> prog B) : prog B :=
  match m with
  | Ret a => f a
  | Throw e => Throw e
  | Hang => Hang
  | Vis c k => Vis c (fun x => pbind (k x) f)
  | Spawn child k => Spawn child (pbind k f)
  end.

#[global] Instance Monad_prog : Monad prog :=
  {| ret := fun A (a : A) => Ret a; bind := @pbind |}.

(** A call that does not return a promise. *)
Definition call {X : Type} (c : ServiceCall X) : prog X := Vis c (fun x => Ret x).

(** [await service.method(...)]. *)
Definition await {A : Type} (c : ServiceCall (Promised A)) : prog A :=
  Vis c (fun r =>
    match r with
    | Fulfilled a => Ret a
    | Rejected e => Throw e
    | NeverSettles => Hang
    end).

(** [for (const x of xs) { body }] over a mutable [s]. *)
Fixpoint for_of {A S : Type} (xs : list A) (body : A -> S -> prog S) (s : S) : prog S :=
  match xs with
  | [] => Ret s
  | x :: xs' => s' <- body x s ;; for_of xs' body s'
  end.

(** [arr.forEach(callback)]: reading [forEach] of [undefined] throws. *)
Definition forEach {A S : Type} (arr : option (list A)) (callback : A -> S -> S) (s : S)
  : prog S :=
  match arr with
  | None => Throw (TypeError "Cannot read property 'forEach' of undefined")
  | Some xs => Ret (fold_left (fun acc x => callback x acc) xs s)
  end.

(** [if (x)] on an optional array: [undefined] is falsy, every array is truthy. *)
Definition truthy {A : Type} (x : option A) : bool :=
  match x with Some _ => true | None => false end.

(** [xs.map(f)] where [f] calls a service. *)
Fixpoint mapM {A B : Type} (f : A -> prog B) (xs : list A) : prog (list B) :=
  match xs with
  | [] => Ret []
  | x :: xs' => y <- f x ;; ys <- mapM f xs' ;; Ret (y :: ys)
  end.

(** ** [Promise.all] *)

Definition settled (p : PromiseId) (seen : list PromiseId) : bool :=
  existsb (Nat.eqb p) seen.

(** The first promise of [promises] to reject, going through the settlements
    in order; a promise settles once, later entries for it do not count. *)
Fixpoint first_rejection (promises seen : list PromiseId) (tl : Timeline) : option Failure :=
  match tl with
  | [] => None
  | (p, s) :: tl' =>
      if settled p seen then first_rejection promises seen tl'
      else match s with
           | Rejects e =>
               if settled p promises then Some e
               else first_rejection promises (p :: seen) tl'
           | Resolves => first_rejection promises (p :: seen) tl'
           end
  end.

(** How the promise [p] settles: its first entry. *)
Definition fate (tl : Timeline) (p : PromiseId) : option Settlement :=
  option_map snd (find (fun entry => Nat.eqb (fst entry) p) tl).

Definition resolves (tl : Timeline) (p : PromiseId) : bool :=
  match fate tl p with Some Resolves => true | _ => false end.

(** [Promise.all(promises)]: rejects as soon as one of them rejects, is
    fulfilled once all are, and stays pending otherwise. *)
Definition promiseAll (promises : list PromiseId) (tl : Timeline) : Promised unit :=
  match first_rejection promises [] tl with
  | Some e => Rejected e
  | None => if forallb (resolves tl) promises then Fulfilled tt else NeverSettles
  end.

Definition awaitAll (promises : list PromiseId) : prog unit :=
  Vis (AwaitAll promises) (fun tl =>
    match promiseAll promises tl with
    | Fulfilled _ => Ret tt
    | Rejected e => Throw e
    | NeverSettles => Hang
    end).

(** [if (xs.length)]: zero is falsy. *)
Definition truthy_length {A : Type} (xs : list A) : bool := negb (Nat.eqb (length xs) 0).

(** Running an action callback. *)
Definition invoke (cb : Callback) : prog unit :=
  match cb with CallReloadWindow => call ReloadWindow end.

(** The two string constants the class is wired with. *)
Definition installMissingDepenencies : string :=
  "workbench.extensions.installMissingDepenencies".
Definition autoInstallMissingDependencies : string :=
  "extensions.autoInstallMissingDependencies".

(** ** Running one call against a host *)

(** What a run leaves behind: the calls with their answers, and the methods
    started without being awaited. *)
Inductive Event : Type :=
| Ev (X : Type) (c : ServiceCall X) (r : X)
| Started (child : prog unit).
Arguments Ev {X} c r.

Inductive Outcome (A : Type) : Type :=
| Returned (a : A)
| Threw (e : Failure)
| Suspended.
Arguments Threw {A} e.
Arguments Suspended {A}.

(** The services, with whatever state they have. *)
Record Host (W : Type) : Type := {
  respond : forall X : Type, ServiceCall X -> W -> X * W
}.

Record Run (W A : Type) : Type := {
  outcome : Outcome A;
  trace : list Event;
  final : W
}.

(** A started method runs on its own: what it returns or throws is lost to
    its caller.  Here its calls are put at the place of the start; the only
    caller that starts a method returns right after without another call. *)
Fixpoint run {W : Type} (h : Host W) {A : Type} (p : prog A) (w : W) : Run W A :=
  match p with
  | Ret a => {| outcome := Returned a; trace := []; final := w |}
  | Throw e => {| outcome := Threw e; trace := []; final := w |}
  | Hang => {| outcome := Suspended; trace := []; final := w |}
  | Vis c k =>
      let (r, w') := respond h c w in
      let rest := run h (k r) w' in
      {| outcome := outcome rest; trace := Ev c r :: trace rest; final := final rest |}
  | Spawn child k =>
      let theirs := run h child w in
      let mine := run h k (final theirs) in
      {| outcome := outcome mine;
         trace := Started child :: trace theirs ++ trace mine;
         final := final mine |}
  end.

(** ** Reading runs *)

Definition is_notification (ev : Event) : bool :=
  match ev with
  | Ev c _ => match c with Notify _ | NotifyInfo _ => true | _ => false end
  | Started _ => false
  end.

Definition is_gallery_query (ev : Event) : bool :=
  match ev with
  | Ev c _ => match c with QueryGallery _ => true | _ => false end
  | Started _ => false
  end.

Definition is_install (ev : Event) : bool :=
  match ev with
  | Ev c _ => match c with Install _ => true | _ => false end
  | Started _ => false
  end.

Definition is_start (ev : Event) : bool :=
  match ev with
  | Ev _ _ => false
  | Started _ => true
  end.

(** The promises a host hands back for the installs of [extensions], asked one
    after the other. *)
Fixpoint installations {W : Type} (h : Host W) (extensions : list IExtension.t) (w : W)
  : list PromiseId * W :=
  match extensions with
  | [] => ([], w)
  | e :: es =>
      let (p, w1) := respond h (Install e) w in
      let (ps, w2) := installations h es w1 in
      (p :: ps, w2)
  end.

(** The install calls as they show in a trace. *)
Definition installCalls (extensions : list IExtension.t) (promises : list PromiseId)
  : list Event :=
  map (fun ep => Ev (Install (fst ep)) (snd ep)) (combine extensions promises).

(** How many entries of [missing] are [dep] up to letter case. *)
Definition occurrences_ignoring_case (toLowerCase : string -> string) (dep : string)
  (missing : list string) : nat :=
  length (filter (fun d => String.eqb (toLowerCase d) (toLowerCase dep)) missing).

(** A program that shows no notification unless it has read the setting
    [extensions.autoInstallMissingDependencies] as true before. *)
Definition reads_flag (X : Type) (c : ServiceCall X) : X -> bool :=
  match c in ServiceCall X return X -> bool with
  | GetValue key => fun r => (String.eqb key autoInstallMissingDependencies && r)%bool
  | _ => fun _ => false
  end.

Definition notifies (X : Type) (c : ServiceCall X) : bool :=
  match c with Notify _ | NotifyInfo _ => true | _ => false end.

Fixpoint gated {A : Type} (p : prog A) : Prop :=
  match p with
  | Ret _ | Throw _ | Hang => True
  | Vis c k => notifies c = false /\ forall r, reads_flag c r = true \/ gated (k r)
  | Spawn child k => gated child /\ gated k
  end.

(** A program that starts no method. *)
Fixpoint starts_nothing {A : Type} (p : prog A) : Prop :=
  match p with
  | Ret _ | Throw _ | Hang => True
  | Vis c k => forall r, starts_nothing (k r)
  | Spawn _ _ => False
  end.

(** The two sets of [getAllMissingDependencies] as functions of the running
    extensions; [run_getAllMissingDependencies] shows that the method computes
    them. *)
Definition runningIdsOf (toLowerCase : string -> string)
  (runningExtensions : list IExtensionDescription.t) : JsSet.t :=
  fold_left
    (fun result r =>
       JsSet.add
         (toLowerCase (ExtensionIdentifier.value (IExtensionDescription.identifier r)))
         result)
    runningExtensions JsSet.empty.

Definition missingFrom (toLowerCase : string -> string) (ids : JsSet.t)
  (extension : IExtensionDescription.t) (missing : JsSet.t) : JsSet.t :=
  match IExtensionDescription.extensionDependencies extension with
  | Some deps =>
      fold_left
        (fun acc dep =>
           if negb (JsSet.has (toLowerCase dep) ids) then JsSet.add dep acc else acc)
        deps missing
  | None => missing
  end.

Definition missingDependenciesOf (toLowerCase : string -> string)
  (runningExtensions : list IExtensionDescription.t) : list string :=
  fold_left
    (fun missing extension =>
       missingFrom toLowerCase (runningIdsOf toLowerCase runningExtensions) extension missing)
    runningExtensions JsSet.empty.

(** The filter of [getUninstalledMissingDependencies]. *)
Definition notInstalled
  (areSameExtensions : IExtensionIdentifier.t -> IExtensionIdentifier.t -> bool)
  (localExtensions : list IExtension.t) (id : string) : bool :=
  forallb
    (fun l =>
       negb (areSameExtensions (IExtension.identifier l) (IExtensionIdentifier.Build id None)))
    localExtensions.

(** ** The workbench around the contribution *)

(** [IConfigurationChangeEvent]: the source asks it one question. *)
Record IConfigurationChangeEvent : Type := {
  affectsConfiguration : string -> bool
}.

(** [IMenuItem] with its [ICommandAction]. *)
Record IMenuItem : Type := {
  command_id : string;
  category : string;
  title : string
}.

(** Why an activation runs: somebody executed a command, or the contribution
    checked on its own (when constructed, when the configuration changed). *)
Inductive Origin : Type :=
| CommandInvocation (id : string)
| AutomaticCheck.

(** The registries the constructor writes to, the subscription it holds, and
    the asynchronous work in flight: every activation has a number, its
    programs are suspended in [tasks], and [log] keeps what each did. *)
Record Workbench : Type := {
  constructed : bool;
  commands : list (string * prog unit);
  commandPalette : list IMenuItem;
  listeners : list (IConfigurationChangeEvent -> prog unit);
  origins : list Origin;
  tasks : list (nat * prog unit);
  log : list (nat * Event)
}.

Definition startup : Workbench :=
  {| constructed := false; commands := []; commandPalette := []; listeners := [];
     origins := []; tasks := []; log := [] |}.

(** A new activation running [p]. *)
Definition activate (o : Origin) (p : prog unit) (wb : Workbench) : Workbench :=
  {| constructed := constructed wb;
     commands := commands wb;
     commandPalette := commandPalette wb;
     listeners := listeners wb;
     origins := origins wb ++ [o];
     tasks := tasks wb ++ [(length (origins wb), p)];
     log := log wb |}.

Fixpoint update {A : Type} (n : nat) (x : A) (xs : list A) : list A :=
  match xs, n with
  | [], _ => []
  | _ :: xs', O => x :: xs'
  | y :: xs', S n' => y :: update n' x xs'
  end.

(** Task [n] goes on as [p], with the new tasks [more], and [what] is logged. *)
Definition resume (n a : nat) (p : prog unit) (more : list (prog unit)) (what : Event)
  (wb : Workbench) : Workbench :=
  {| constructed := constructed wb;
     commands := commands wb;
     commandPalette := commandPalette wb;
     listeners := listeners wb;
     origins := origins wb;
     tasks := update n (a, p) (tasks wb) ++ map (fun q => (a, q)) more;
     log := log wb ++ [(a, what)] |}.

(** What can happen to the workbench from outside, and [Advance]: a suspended
    program is resumed. *)
Inductive Stimulus : Type :=
| Construct
| Dispose
| ConfigurationChanged (e : IConfigurationChangeEvent)
| ExecuteCommand (id : string)
| Advance (n : nat).

Definition lookup (id : string) (registry : list (string * prog unit)) : option (prog unit) :=
  option_map snd (find (fun entry => String.eqb id (fst entry)) registry).

(** The program that is left of a run. *)
Definition left_of (o : Outcome unit) : prog unit :=
  match o with
  | Returned u => Ret u
  | Threw e => Throw e
  | Suspended => Hang
  end.

(** ** The class *)

Section ExtensionDependencyChecker.

(** [String.prototype.toLowerCase]. *)
Variable toLowerCase : string -> string.

(** [areSameExtensions] of [extensionManagementUtil], not among the sources. *)
Variable areSameExtensions : IExtensionIdentifier.t -> IExtensionIdentifier.t -> bool.

(** [localize(key, defaultMessage)] of [vs/nls]. *)
Variable localize : string -> string -> string.

Definition getAllMissingDependencies : prog (list string) :=
  runningExtensions <- await GetExtensions ;;
  let runningExtensionsIds : JsSet.t :=
    fold_left
      (fun result r =>
         JsSet.add
           (toLowerCase (ExtensionIdentifier.value (IExtensionDescription.identifier r)))
           result)
      runningExtensions JsSet.empty in
  missingDependencies <-
    for_of runningExtensions
      (fun extension missingDependencies =>
         if truthy (IExtensionDescription.extensionDependencies extension) then
           forEach (IExtensionDescription.extensionDependencies extension)
             (fun dep missingDependencies =>
                if negb (JsSet.has (toLowerCase dep) runningExtensionsIds)
                then JsSet.add dep missingDependencies
                else missingDependencies)
             missingDependencies
         else Ret missingDependencies)
      JsSet.empty ;;
  ret (values missingDependencies).

Definition getUninstalledMissingDependencies : prog (list string) :=
  allMissingDependencies <- getAllMissingDependencies ;;
  localExtensions <- await QueryLocal ;;
  ret (filter
         (fun id =>
            forallb
              (fun l =>
                 negb (areSameExtensions (IExtension.identifier l)
                         (IExtensionIdentifier.Build id None)))
              localExtensions)
         allMissingDependencies).

Definition finishedNotification : INotification.t :=
  INotification.Build Info
    (localize "finished installing missing deps"
       "Finished installing missing dependencies. Please reload the window now.")
    [Action.Build "realod" (localize "reload" "Realod Window") "" true CallReloadWindow].

Definition noMissingDependenciesMessage : string :=
  localize "no missing deps" "There are no missing dependencies to install.".

Definition installMissingDependencies : prog unit :=
  missingDependencies <- getUninstalledMissingDependencies ;;
  if truthy_length missingDependencies then
    pager <- await (QueryGallery
                      (IQueryOptions.Build missingDependencies (length missingDependencies))) ;;
    let extensions := IPager.firstPage pager in
    if truthy_length extensions then
      promises <- mapM (fun extension => call (Install extension)) extensions ;;
      awaitAll promises ;;
      call (Notify finishedNotification)
    else ret tt
  else call (NotifyInfo noMissingDependenciesMessage).

Definition checkAndInstallMissingDependencies : prog unit :=
  missingDependencies <- getUninstalledMissingDependencies ;;
  if Nat.ltb 0 (length missingDependencies) then
    autoInstall <- (call (GetValue autoInstallMissingDependencies) : prog bool) ;;
    if autoInstall : bool then Spawn installMissingDependencies (Ret tt) else ret tt
  else ret tt.

(** The listener the constructor subscribes. *)
Definition onDidChangeConfiguration (e : IConfigurationChangeEvent) : prog unit :=
  if affectsConfiguration e autoInstallMissingDependencies
  then Spawn checkAndInstallMissingDependencies (Ret tt)
  else Ret tt.

(** The constructor: the command, the menu item, the first check, the
    subscription. *)
Definition construct (wb : Workbench) : Workbench :=
  let wb' :=
    {| constructed := true;
       commands := commands wb ++ [(installMissingDepenencies, installMissingDependencies)];
       commandPalette :=
         commandPalette wb ++
           [{| command_id := installMissingDepenencies;
               category := localize "extensions" "Extensions";
               title := localize "auto install missing deps" "Install Missing Dependencies" |}];
       listeners := listeners wb ++ [onDidChangeConfiguration];
       origins := origins wb;
       tasks := tasks wb;
       log := log wb |} in
  activate AutomaticCheck (Spawn checkAndInstallMissingDependencies (Ret tt)) wb'.

(** [dispose()]: the subscription goes, the command stays registered. *)
Definition dispose (wb : Workbench) : Workbench :=
  {| constructed := constructed wb;
     commands := commands wb;
     commandPalette := commandPalette wb;
     listeners := [];
     origins := origins wb;
     tasks := tasks wb;
     log := log wb |}.

(** One step of the workbench: the contribution is constructed or disposed,
    the configuration changes, a command is executed, or a suspended program
    goes on: a service answers its call, or it starts a method. *)
Inductive step : Workbench -> Workbench -> Prop :=
| step_construct wb :
    constructed wb = false ->
    step wb (construct wb)
| step_dispose wb :
    step wb (dispose wb)
| step_configuration wb e :
    step wb (fold_left (fun w listener => activate AutomaticCheck (listener e) w)
               (listeners wb) wb)
| step_command wb id handler :
    lookup id (commands wb) = Some handler ->
    step wb (activate (CommandInvocation id) handler wb)
| step_answer wb n a X (c : ServiceCall X) k r :
    nth_error (tasks wb) n = Some (a, Vis c k) ->
    step wb (resume n a (k r) [] (Ev c r) wb)
| step_start wb n a child k :
    nth_error (tasks wb) n = Some (a, Spawn child k) ->
    step wb (resume n a k [child] (Started child) wb).

Inductive reachable : Workbench -> Prop :=
| reachable_startup : reachable startup
| reachable_step wb wb' : reachable wb -> step wb wb' -> reachable wb'.

(** The same steps, taken one at a time against a host: [Advance n] lets the
    suspended program number [n] go on. *)
Definition react {W : Type} (h : Host W) (s : Stimulus) (st : Workbench * W)
  : Workbench * W :=
  let (wb, w) := st in
  match s with
  | Construct => if constructed wb then st else (construct wb, w)
  | Dispose => (dispose wb, w)
  | ConfigurationChanged e =>
      (fold_left (fun wb' listener => activate AutomaticCheck (listener e) wb')
         (listeners wb) wb, w)
  | ExecuteCommand id =>
      match lookup id (commands wb) with
      | Some handler => (activate (CommandInvocation id) handler wb, w)
      | None => st
      end
  | Advance n =>
      match nth_error (tasks wb) n with
      | Some (a, Vis c k) =>
          let (r, w') := respond h c w in
          (resume n a (k r) [] (Ev c r) wb, w')
      | Some (a, Spawn child k) => (resume n a k [child] (Started child) wb, w)
      | _ => st
      end
  end.

Definition play {W : Type} (h : Host W) (script : list Stimulus) (st : Workbench * W)
  : Workbench * W :=
  fold_left (fun st' s => react h s st') script st.

(** Why activation [a] may show a notification: it is an invocation of the
    command, or it is an automatic check that has read the setting as true,
    as [before] records. *)
Definition caused (wb : Workbench) (a : nat) (before : list (nat * Event)) : Prop :=
  nth_error (origins wb) a = Some (CommandInvocation installMissingDepenencies) \/
  (nth_error (origins wb) a = Some AutomaticCheck /\
   In (a, Ev (GetValue autoInstallMissingDependencies) true) before).

(** What holds of every workbench the steps lead to. *)
Record consistent (wb : Workbench) : Prop := {
  commands_registered :
    forall id handler,
      In (id, handler) (commands wb) ->
      id = installMissingDepenencies /\ handler = installMissingDependencies;
  listeners_subscribed :
    forall listener, In listener (listeners wb) -> listener = onDidChangeConfiguration;
  tasks_gated :
    forall a p,
      In (a, p) (tasks wb) ->
      nth_error (origins wb) a = Some (CommandInvocation installMissingDepenencies) \/
      (nth_error (origins wb) a = Some AutomaticCheck /\
       (In (a, Ev (GetValue autoInstallMissingDependencies) true) (log wb) \/ gated p));
  notifications_caused :
    forall pre a ev post,
      log wb = pre ++ (a, ev) :: post ->
      is_notification ev = true ->
      caused wb a pre
}.

End ExtensionDependencyChecker.

(** ** A concrete workbench, to run the methods on *)

Module Sample.

(** ASCII lower-casing, enough for [publisher.name] identifiers. *)
Definition lower_ascii (c : ascii) : ascii :=
  let n := nat_of_ascii c in
  if (Nat.leb 65 n && Nat.leb n 90)%bool then ascii_of_nat (n + 32) else c.

Fixpoint toLowerCase (s : string) : string :=
  match s with
  | EmptyString => EmptyString
  | String c s' => String (lower_ascii c) (toLowerCase s')
  end.

(** Modelled from the spec: [areSameExtensions] of [extensionManagementUtil] is
    not among the sources; identifiers are compared by their uuids when both
    have one and by their ids without regard to case otherwise. *)
Definition areSameExtensions (a b : IExtensionIdentifier.t) : bool :=
  match IExtensionIdentifier.uuid a, IExtensionIdentifier.uuid b with
  | Some ua, Some ub => String.eqb ua ub
  | _, _ =>
      String.eqb (toLowerCase (IExtensionIdentifier.id a))
        (toLowerCase (IExtensionIdentifier.id b))
  end.

(** No language pack: the default message. *)
Definition localize (key message : string) : string := message.

(** The services as plain data: what runs, what is installed locally, what
    the gallery has, the setting, and how installations end. *)
Record World : Type := {
  running : Promised (list IExtensionDescription.t);
  installed : Promised (list IExtension.t);
  gallery : Promised (list IExtension.t);
  autoInstall : bool;
  installs : Timeline;
  issued : nat
}.

(** One more install has been asked for. *)
Definition issuing (w : World) : World :=
  {| running := running w; installed := installed w; gallery := gallery w;
     autoInstall := autoInstall w; installs := installs w; issued := S (issued w) |}.

Definition inGallery (names : list string) (e : IExtension.t) : bool :=
  existsb (fun n => areSameExtensions (IExtension.identifier e) (IExtensionIdentifier.Build n None))
    names.

Definition answer (X : Type) (c : ServiceCall X) (w : World) : X * World :=
  match c in ServiceCall X return X * World with
  | GetExtensions => (running w, w)
  | QueryLocal => (installed w, w)
  | QueryGallery options =>
      (match gallery w with
       | Fulfilled all =>
           let found := filter (inGallery (IQueryOptions.names options)) all in
           Fulfilled (IPager.Build (firstn (IQueryOptions.pageSize options) found)
                        (length found) (IQueryOptions.pageSize options))
       | Rejected e => Rejected e
       | NeverSettles => NeverSettles
       end, w)
  | Install _ => (issued w, issuing w)
  | AwaitAll _ => (installs w, w)
  | GetValue _ => (autoInstall w, w)
  | Notify _ => (tt, w)
  | NotifyInfo _ => (tt, w)
  | ReloadWindow => (tt, w)
  end.

Definition host : Host World := {| respond := answer |}.

Definition extension (id : string) (deps : option (list string)) : IExtensionDescription.t :=
  IExtensionDescription.Build (ExtensionIdentifier.Build id) deps.

Definition package (id version : string) : IExtension.t :=
  IExtension.Build (IExtensionIdentifier.Build id None) version.

Definition world (R : list IExtensionDescription.t) (L G : list IExtension.t) (flag : bool)
  (tl : Timeline) : World :=
  {| running := Fulfilled R; installed := Fulfilled L; gallery := Fulfilled G;
     autoInstall := flag; installs := tl; issued := 0 |}.

(** [pub.a] depends on [pub.b] under two spellings, on itself and on [x.y],
    which is installed but not running; [pub.c] declares no dependencies. *)
Definition runningExtensions : list IExtensionDescription.t :=
  [extension "pub.a" (Some ["pub.B"; "pub.b"; "Pub.A"; "x.y"]); extension "pub.c" None].

Definition localExtensions : list IExtension.t := [package "X.Y" "1.0.0"].

Definition galleryExtensions : list IExtension.t :=
  [package "pub.b" "1.2.0"; package "q.q" "0.1.0"].

(** The install succeeds. *)
Definition succeeding : World :=
  world runningExtensions localExtensions galleryExtensions true [(0, Resolves)].

(** The install fails. *)
Definition failing : World :=
  world runningExtensions localExtensions galleryExtensions true
    [(0, Rejects (ServiceFailure "install failed"))].

(** The gallery does not know the missing extensions. *)
Definition unknown : World :=
  world runningExtensions localExtensions [package "q.q" "0.1.0"] true [].

(** Nothing is missing. *)
Definition complete : World :=
  world [extension "pub.a" (Some ["pub.c"]); extension "pub.c" None] [] [] false [].

(** The setting is off. *)
Definition manual : World :=
  world runningExtensions localExtensions galleryExtensions false [(0, Resolves)].

(** The contribution is constructed and its first check runs to the end:
    the check is started, lists, reads the setting, starts the installation,
    which lists, queries, installs, awaits and notifies. *)
Definition firstCheck : list Stimulus :=
  [Construct; Advance 0; Advance 1; Advance 1; Advance 1; Advance 1;
   Advance 2; Advance 2; Advance 2; Advance 2; Advance 2; Advance 2].

(** The class on this workbench. *)
Definition getAll : prog (list string) := getAllMissingDependencies toLowerCase.
Definition getUninstalled : prog (list string) :=
  getUninstalledMissingDependencies toLowerCase areSameExtensions.
Definition install : prog unit :=
  installMissingDependencies toLowerCase areSameExtensions localize.
Definition check : prog unit :=
  checkAndInstallMissingDependencies toLowerCase areSameExtensions localize.

(** The gallery query for the two spellings of [pub.b], and its answer. *)
Definition query : ServiceCall (Promised IPager.t) :=
  QueryGallery (IQueryOptions.Build ["pub.B"; "pub.b"] 2).
Definition found : IPager.t := IPager.Build [package "pub.b" "1.2.0"] 1 2.

Definition afterFirstCheck : Workbench :=
  fst (play toLowerCase areSameExtensions localize host firstCheck (startup, succeeding)).

(** The install neither succeeds nor fails. *)
Definition pending : World :=
  world runningExtensions localExtensions galleryExtensions true [].

(** The gallery cannot be reached. *)
Definition offline : World :=
  {| running := Fulfilled runningExtensions; installed := Fulfilled localExtensions;
     gallery := Rejected (ServiceFailure "offline"); autoInstall := true;
     installs := []; issued := 0 |}.

(** The extension host cannot be reached. *)
Definition hostless : World :=
  {| running := Rejected (ServiceFailure "no extension host");
     installed := Fulfilled localExtensions; gallery := Fulfilled galleryExtensions;
     autoInstall := true; installs := []; issued := 0 |}.

(** Services under which [pub.b] starts running while the setting is read:
    the list is not the same the second time it is computed. *)
Definition starting (w : World) : World :=
  {| running := Fulfilled [extension "pub.a" (Some ["pub.b"]); extension "pub.b" None];
     installed := installed w; gallery := gallery w; autoInstall := autoInstall w;
     installs := installs w; issued := issued w |}.

Definition changing : Host World :=
  {| respond := fun (X : Type) (c : ServiceCall X) (w : World) =>
       match c in ServiceCall X0 return X0 * World with
       | GetValue _ => (autoInstall w, starting w)
       | c' => answer c' w
       end |}.




End Sample.

(** ** More to read off runs *)

Definition is_setting_read (ev : Event) : bool :=
  match ev with
  | Ev c _ => match c with GetValue _ => true | _ => false end
  | Started _ => false
  end.

Definition is_reload (ev : Event) : bool :=
  match ev with
  | Ev c _ => match c with ReloadWindow => true | _ => false end
  | Started _ => false
  end.

(** A program all of whose calls and starts, whatever the answers, satisfy
    [allowed]. *)
Fixpoint calls_only (allowed : Event -> bool) {A : Type} (p : prog A) : Prop :=
  match p with
  | Ret _ | Throw _ | Hang => True
  | Vis c k => forall r, allowed (Ev c r) = true /\ calls_only allowed (k r)
  | Spawn child k =>
      allowed (Started child) = true /\ calls_only allowed child /\ calls_only allowed k
  end.

(** What an invocation of a command never does: read the setting. *)
Definition besides_setting (o : Origin) (ev : Event) : bool :=
  match o with
  | CommandInvocation _ => negb (is_setting_read ev)
  | AutomaticCheck => true
  end.

(** What no activation does: reload the window. *)
Definition besides_reload (o : Origin) (ev : Event) : bool := negb (is_reload ev).

(** Every suspended program and every logged event of a workbench is within
    what [allowed] grants to the origin of its activation. *)
Record permitted (allowed : Origin -> Event -> bool) (wb : Workbench) : Prop := {
  tasks_permitted :
    forall a p,
      In (a, p) (tasks wb) ->
      exists o, nth_error (origins wb) a = Some o /\ calls_only (allowed o) p;
  log_permitted :
    forall a ev,
      In (a, ev) (log wb) ->
      exists o, nth_error (origins wb) a = Some o /\ allowed o ev = true
}.

Section Lifetime.

Variable toLowerCase : string -> string.
Variable areSameExtensions : IExtensionIdentifier.t -> IExtensionIdentifier.t -> bool.
Variable localize : string -> string -> string.



End Lifetime.

(** * Properties *)

(** ** Running programs *)

Section Running.

Variable W : Type.
Variable h : Host W.

(** A sequence runs its first part and, when that returns, the second. *)
Lemma run_pbind (A B : Type) (m : prog A) (f : A -> prog B) (w : W) :
  run h (pbind m f) w =
  match outcome (run h m w) with
  | Returned a =>
      let rest := run h (f a) (final (run h m w)) in
      {| outcome := outcome rest;
         trace := trace (run h m w) ++ trace rest;
         final := final rest |}
  | Threw e =>
      {| outcome := Threw e; trace := trace (run h m w); final := final (run h m w) |}
  | Suspended =>
      {| outcome := Suspended; trace := trace (run h m w); final := final (run h m w) |}
  end.
Proof.
  revert w. induction m as [A a | A e | A | A X c k IH | A child _ k IH]; intros w; simpl.
  - destruct (run h (f a) w); reflexivity.
  - reflexivity.
  - reflexivity.
  - destruct (respond h c w) as [r w1]. rewrite IH.
    destruct (outcome (run h (k r) w1)); reflexivity.
  - rewrite IH.
    destruct (outcome (run h k (final (run h child w)))); simpl;
      rewrite ?app_assoc; reflexivity.
Qed.

Lemma run_call (X : Type) (c : ServiceCall X) (w : W) :
  run h (call c) w =
  {| outcome := Returned (fst (respond h c w));
     trace := [Ev c (fst (respond h c w))];
     final := snd (respond h c w) |}.
Proof. simpl. destruct (respond h c w). reflexivity. Qed.

Lemma run_await (A : Type) (c : ServiceCall (Promised A)) (w : W) :
  run h (await c) w =
  {| outcome :=
       match fst (respond h c w) with
       | Fulfilled a => Returned a
       | Rejected e => Threw e
       | NeverSettles => Suspended
       end;
     trace := [Ev c (fst (respond h c w))];
     final := snd (respond h c w) |}.
Proof. simpl. destruct (respond h c w) as [[a | e |] w1]; reflexivity. Qed.

Lemma run_awaitAll (promises : list PromiseId) (w : W) :
  run h (awaitAll promises) w =
  {| outcome :=
       match promiseAll promises (fst (respond h (AwaitAll promises) w)) with
       | Fulfilled _ => Returned tt
       | Rejected e => Threw e
       | NeverSettles => Suspended
       end;
     trace := [Ev (AwaitAll promises) (fst (respond h (AwaitAll promises) w))];
     final := snd (respond h (AwaitAll promises) w) |}.
Proof.
  simpl. destruct (respond h (AwaitAll promises) w) as [tl w1]. simpl.
  destruct (promiseAll promises tl); reflexivity.
Qed.

(** [extensions.map(extension => install(extension))]: one call for each
    extension, in order, none of them awaited. *)
Lemma run_installs (extensions : list IExtension.t) (w : W) :
  run h (mapM (fun extension => call (Install extension)) extensions) w =
  {| outcome := Returned (fst (installations h extensions w));
     trace := installCalls extensions (fst (installations h extensions w));
     final := snd (installations h extensions w) |}.
Proof.
  revert w. induction extensions as [| e es IH]; intros w; [reflexivity |].
  cbn [mapM bind ret Monad_prog]. rewrite run_pbind, run_call. cbn [outcome trace final].
  cbn zeta. rewrite run_pbind, IH. cbn [outcome trace final installations].
  destruct (respond h (Install e) w) as [p w1]. cbn [fst snd].
  destruct (installations h es w1) as [ps w2]. unfold installCalls. simpl.
  rewrite app_nil_r. reflexivity.
Qed.

Lemma run_start (A : Type) (child : prog unit) (a : A) (w : W) :
  run h (Spawn child (Ret a)) w =
  {| outcome := Returned a;
     trace := Started child :: trace (run h child w);
     final := final (run h child w) |}.
Proof. simpl. rewrite app_nil_r. reflexivity. Qed.

Lemma installations_length (extensions : list IExtension.t) (w : W) :
  length (fst (installations h extensions w)) = length extensions.
Proof.
  revert w. induction extensions as [| e es IH]; intros w; [reflexivity |].
  simpl. destruct (respond h (Install e) w) as [p w1]. specialize (IH w1).
  destruct (installations h es w1) as [ps w2]. simpl in *. now rewrite IH.
Qed.

(** A program without [Spawn] starts nothing. *)
Lemma starts_nothing_run (A : Type) (p : prog A) (w : W) (ev : Event) :
  starts_nothing p -> In ev (trace (run h p w)) -> is_start ev = false.
Proof.
  revert w. induction p as [A a | A e | A | A X c k IH | A child _ k _]; intros w; simpl.
  - intros _ [].
  - intros _ [].
  - intros _ [].
  - intros Hk. destruct (respond h c w) as [r w1]. simpl.
    intros [<- | Hin]; [reflexivity | exact (IH r w1 (Hk r) Hin)].
  - intros [].
Qed.

End Running.

Lemma starts_nothing_pbind (A B : Type) (m : prog A) (f : A -> prog B) :
  starts_nothing m -> (forall a, starts_nothing (f a)) -> starts_nothing (pbind m f).
Proof.
  intros Hm Hf. induction m as [A a | A e | A | A X c k IH | A child _ k _]; simpl in *.
  - apply Hf.
  - exact I.
  - exact I.
  - intros r. apply IH; [apply Hm | assumption].
  - contradiction.
Qed.

Lemma filter_none (A : Type) (f : A -> bool) (xs : list A) :
  (forall x, In x xs -> f x = false) -> filter f xs = [].
Proof.
  induction xs as [| x xs IH]; intros H; simpl; [reflexivity |].
  rewrite (H x (or_introl eq_refl)). apply IH. intros y Hy. apply H. now right.
Qed.

Lemma truthy_length_nonempty (A : Type) (xs : list A) : xs <> [] -> truthy_length xs = true.
Proof. destruct xs; [contradiction | reflexivity]. Qed.

Lemma installCalls_installs (extensions : list IExtension.t) (promises : list PromiseId) :
  filter is_install (installCalls extensions promises) = installCalls extensions promises /\
  filter is_notification (installCalls extensions promises) = [] /\
  filter is_gallery_query (installCalls extensions promises) = [].
Proof.
  unfold installCalls. induction (combine extensions promises) as [| ep l IH]; simpl.
  - now repeat split.
  - destruct IH as [H1 [H2 H3]]. rewrite H1. now repeat split.
Qed.

(** ** The JavaScript set *)

Lemma has_In (x : string) (s : JsSet.t) : JsSet.has x s = true <-> In x s.
Proof.
  unfold JsSet.has. rewrite existsb_exists. split.
  - intros [y [Hy Heq]]. apply String.eqb_eq in Heq. now subst.
  - intros Hx. exists x. split; [assumption | apply String.eqb_refl].
Qed.

Lemma has_false (x : string) (s : JsSet.t) : JsSet.has x s = false <-> ~ In x s.
Proof.
  rewrite <- has_In. destruct (JsSet.has x s); split; congruence.
Qed.

Lemma add_In (x y : string) (s : JsSet.t) : In y (JsSet.add x s) <-> y = x \/ In y s.
Proof.
  unfold JsSet.add. destruct (JsSet.has x s) eqn:Hx.
  - apply has_In in Hx. split; [now right | intros [-> | H]; assumption].
  - rewrite in_app_iff. simpl. split.
    + intros [H | [H | []]]; [now right | now left].
    + intros [-> | H]; [right; now left | now left].
Qed.

Lemma add_NoDup (x : string) (s : JsSet.t) : NoDup s -> NoDup (JsSet.add x s).
Proof.
  intros Hs. unfold JsSet.add. destruct (JsSet.has x s) eqn:Hx; [assumption |].
  apply has_false in Hx. apply NoDup_app; [assumption | repeat constructor; intros [] | ].
  intros y Hy [<- | []]. contradiction.
Qed.

(** ** [getAllMissingDependencies] *)

Section Missing.

Variable toLowerCase : string -> string.

Abbreviation idOf r :=
  (toLowerCase (ExtensionIdentifier.value (IExtensionDescription.identifier r))).

Lemma runningIds_In (x : string) (R : list IExtensionDescription.t) (s : JsSet.t) :
  In x (fold_left (fun result r => JsSet.add (idOf r) result) R s) <->
  In x s \/ exists r, In r R /\ x = idOf r.
Proof.
  revert s. induction R as [| r R IH]; intros s; simpl.
  - split; [now left | intros [H | [r [[] _]]]; assumption].
  - rewrite IH, add_In. split.
    + intros [[-> | H] | [r' [Hr' ->]]].
      * right. exists r. split; [now left | reflexivity].
      * now left.
      * right. exists r'. split; [now right | reflexivity].
    + intros [H | [r' [[<- | Hr'] ->]]].
      * left. now right.
      * left. now left.
      * right. exists r'. split; [assumption | reflexivity].
Qed.

Lemma runningIdsOf_has (x : string) (R : list IExtensionDescription.t) :
  JsSet.has x (runningIdsOf toLowerCase R) = true <-> exists r, In r R /\ x = idOf r.
Proof.
  rewrite has_In. unfold runningIdsOf. rewrite runningIds_In. simpl.
  split; [intros [[] | H]; assumption | now right].
Qed.

Lemma kept_In (keep : string -> bool) (d : string) (deps : list string) (s : JsSet.t) :
  In d (fold_left (fun acc dep => if keep dep then JsSet.add dep acc else acc) deps s) <->
  In d s \/ (In d deps /\ keep d = true).
Proof.
  revert s. induction deps as [| x deps IH]; intros s; simpl.
  - split; [now left | intros [H | [[] _]]; assumption].
  - rewrite IH. destruct (keep x) eqn:Hx.
    + rewrite add_In. split.
      * intros [[-> | H] | [H K]]; [right; split; [now left | assumption] | now left |].
        right. split; [now right | assumption].
      * intros [H | [[<- | H] K]]; [left; now right | left; now left |].
        right. split; assumption.
    + split.
      * intros [H | [H K]]; [now left | right; split; [now right | assumption]].
      * intros [H | [[<- | H] K]]; [now left | congruence | right; split; assumption].
Qed.

Lemma kept_NoDup (keep : string -> bool) (deps : list string) (s : JsSet.t) :
  NoDup s ->
  NoDup (fold_left (fun acc dep => if keep dep then JsSet.add dep acc else acc) deps s).
Proof.
  revert s. induction deps as [| x deps IH]; intros s Hs; simpl; [assumption |].
  apply IH. destruct (keep x); [now apply add_NoDup | assumption].
Qed.

Lemma missingFrom_In (ids : JsSet.t) (e : IExtensionDescription.t) (s : JsSet.t) (d : string) :
  In d (missingFrom toLowerCase ids e s) <->
  In d s \/
  exists deps, IExtensionDescription.extensionDependencies e = Some deps /\
               In d deps /\ JsSet.has (toLowerCase d) ids = false.
Proof.
  unfold missingFrom. destruct (IExtensionDescription.extensionDependencies e) as [deps |].
  - rewrite (kept_In (fun dep => negb (JsSet.has (toLowerCase dep) ids))).
    rewrite negb_true_iff. split.
    + intros [H | [H K]]; [now left |]. right. exists deps. now repeat split.
    + intros [H | [deps' [E [H K]]]]; [now left |]. injection E as <-. right. now split.
  - split; [now left | intros [H | [deps [E _]]]; [assumption | discriminate]].
Qed.

Lemma missing_fold_In (ids : JsSet.t) (R : list IExtensionDescription.t) (s : JsSet.t)
  (d : string) :
  In d (fold_left (fun missing e => missingFrom toLowerCase ids e missing) R s) <->
  In d s \/
  exists e deps, In e R /\ IExtensionDescription.extensionDependencies e = Some deps /\
                 In d deps /\ JsSet.has (toLowerCase d) ids = false.
Proof.
  revert s. induction R as [| e R IH]; intros s; simpl.
  - split; [now left | intros [H | [e [deps [[] _]]]]; assumption].
  - rewrite IH, missingFrom_In. split.
    + intros [[H | [deps [E [H K]]]] | [e' [deps [He' [E [H K]]]]]].
      * now left.
      * right. exists e, deps. repeat split; [now left | assumption ..].
      * right. exists e', deps. repeat split; [now right | assumption ..].
    + intros [H | [e' [deps [[<- | He'] [E [H K]]]]]].
      * left. now left.
      * left. right. exists deps. now repeat split.
      * right. exists e', deps. now repeat split.
Qed.

Lemma missing_fold_NoDup (ids : JsSet.t) (R : list IExtensionDescription.t) (s : JsSet.t) :
  NoDup s -> NoDup (fold_left (fun missing e => missingFrom toLowerCase ids e missing) R s).
Proof.
  revert s. induction R as [| e R IH]; intros s Hs; simpl; [assumption |].
  apply IH. unfold missingFrom.
  destruct (IExtensionDescription.extensionDependencies e); [| assumption].
  now apply (kept_NoDup (fun dep => negb (JsSet.has (toLowerCase dep) ids))).
Qed.

(** The set difference the method computes. *)
Lemma missingDependenciesOf_In (R : list IExtensionDescription.t) (d : string) :
  In d (missingDependenciesOf toLowerCase R) <->
  (exists e deps, In e R /\ IExtensionDescription.extensionDependencies e = Some deps /\
                  In d deps) /\
  (forall r, In r R -> toLowerCase d <> idOf r).
Proof.
  unfold missingDependenciesOf. rewrite missing_fold_In. simpl. split.
  - intros [[] | [e [deps [He [E [H K]]]]]]. split.
    + exists e, deps. now repeat split.
    + intros r Hr Heq. apply Bool.not_true_iff_false in K. apply K.
      apply runningIdsOf_has. exists r. now split.
  - intros [[e [deps [He [E H]]]] K]. right. exists e, deps. repeat split; try assumption.
    apply Bool.not_true_iff_false. intros Hhas. apply runningIdsOf_has in Hhas.
    destruct Hhas as [r [Hr Heq]]. exact (K r Hr Heq).
Qed.

Lemma missingDependenciesOf_NoDup (R : list IExtensionDescription.t) :
  NoDup (missingDependenciesOf toLowerCase R).
Proof. apply missing_fold_NoDup. constructor. Qed.

(** The loop never reads [forEach] of [undefined]. *)
Lemma for_of_missing (ids : JsSet.t) (R : list IExtensionDescription.t) (s : JsSet.t) :
  for_of R
    (fun extension missingDependencies =>
       if truthy (IExtensionDescription.extensionDependencies extension) then
         forEach (IExtensionDescription.extensionDependencies extension)
           (fun dep missingDependencies =>
              if negb (JsSet.has (toLowerCase dep) ids)
              then JsSet.add dep missingDependencies
              else missingDependencies)
           missingDependencies
       else Ret missingDependencies)
    s
  = Ret (fold_left (fun missing e => missingFrom toLowerCase ids e missing) R s).
Proof.
  revert s. induction R as [| e R IH]; intros s; simpl; [reflexivity |].
  unfold missingFrom at 2.
  destruct (IExtensionDescription.extensionDependencies e) as [deps |]; simpl; apply IH.
Qed.

(** Every run of the method: one call, and the set difference when it is
    answered. *)
Lemma run_getAllMissingDependencies (W : Type) (h : Host W) (w : W) :
  run h (getAllMissingDependencies toLowerCase) w =
  {| outcome :=
       match fst (respond h GetExtensions w) with
       | Fulfilled R => Returned (missingDependenciesOf toLowerCase R)
       | Rejected e => Threw e
       | NeverSettles => Suspended
       end;
     trace := [Ev GetExtensions (fst (respond h GetExtensions w))];
     final := snd (respond h GetExtensions w) |}.
Proof.
  unfold getAllMissingDependencies. simpl.
  destruct (respond h GetExtensions w) as [[R | e |] w1]; simpl; try reflexivity.
  rewrite run_pbind, for_of_missing. reflexivity.
Qed.

(** C1.  Whenever the extension service answers with the running extensions
    [R], [getAllMissingDependencies] returns a sequence without repetition
    whose elements are exactly the identifiers [dep] that occur in the
    [extensionDependencies] of some extension of [R] and whose lower-cased form
    is the lower-cased identifier of no extension of [R]. *)
Theorem getAllMissingDependencies_set_difference
  (W : Type) (h : Host W) (w w' : W) (R : list IExtensionDescription.t) :
  respond h GetExtensions w = (Fulfilled R, w') ->
  exists missing,
    outcome (run h (getAllMissingDependencies toLowerCase) w) = Returned missing /\
    NoDup missing /\
    forall dep,
      In dep missing <->
      (exists extension deps,
          In extension R /\
          IExtensionDescription.extensionDependencies extension = Some deps /\
          In dep deps) /\
      (forall r, In r R -> toLowerCase dep <> idOf r).
Proof.
  intros Hanswer. exists (missingDependenciesOf toLowerCase R).
  rewrite run_getAllMissingDependencies, Hanswer. simpl.
  split; [reflexivity | split].
  - apply missingDependenciesOf_NoDup.
  - intros dep. apply missingDependenciesOf_In.
Qed.

(** C5, as the code has it.  Whenever the extension service answers with the
    running extensions [R], every missing dependency identifier, however
    often it is declared, occurs exactly once in what
    [getAllMissingDependencies] returns, spelled as declared; repetitions are
    collapsed by equality of strings, so that spellings differing in letter
    case are separate entries. *)
Theorem getAllMissingDependencies_once_per_spelling
  (W : Type) (h : Host W) (w w' : W) (R : list IExtensionDescription.t) :
  respond h GetExtensions w = (Fulfilled R, w') ->
  exists missing,
    outcome (run h (getAllMissingDependencies toLowerCase) w) = Returned missing /\
    forall extension deps dep,
      In extension R ->
      IExtensionDescription.extensionDependencies extension = Some deps ->
      In dep deps ->
      (forall r, In r R -> toLowerCase dep <> idOf r) ->
      count_occ string_dec missing dep = 1.
Proof.
  intros Hanswer. exists (missingDependenciesOf toLowerCase R).
  rewrite run_getAllMissingDependencies, Hanswer. simpl.
  split; [reflexivity |].
  intros extension deps dep He Hdeps Hdep Hmissing.
  apply NoDup_count_occ'; [apply missingDependenciesOf_NoDup |].
  apply missingDependenciesOf_In. split; [| assumption].
  exists extension, deps. now repeat split.
Qed.

(** C9.  Whenever the extension service answers with running extensions [R],
    [getAllMissingDependencies] returns (it does not throw on an extension
    without [extensionDependencies]); every identifier it returns is in the
    [extensionDependencies] of an extension that has the field; and an
    extension without the field counts as one with an empty array. *)
Theorem getAllMissingDependencies_undefined_dependencies
  (W : Type) (h : Host W) (w w' : W) (R : list IExtensionDescription.t) :
  respond h GetExtensions w = (Fulfilled R, w') ->
  exists missing,
    outcome (run h (getAllMissingDependencies toLowerCase) w) = Returned missing /\
    (forall dep,
        In dep missing ->
        exists extension deps,
          In extension R /\
          IExtensionDescription.extensionDependencies extension = Some deps /\
          In dep deps) /\
    (forall R1 e R2 (h0 : Host W) (w0 w0' : W),
        R = R1 ++ e :: R2 ->
        IExtensionDescription.extensionDependencies e = None ->
        respond h0 GetExtensions w0 =
          (Fulfilled
             (R1 ++ IExtensionDescription.Build (IExtensionDescription.identifier e) (Some [])
                 :: R2), w0') ->
        outcome (run h0 (getAllMissingDependencies toLowerCase) w0) = Returned missing).
Proof.
  intros Hanswer. exists (missingDependenciesOf toLowerCase R).
  split; [| split].
  - rewrite run_getAllMissingDependencies, Hanswer. reflexivity.
  - intros dep Hdep. apply missingDependenciesOf_In in Hdep. exact (proj1 Hdep).
  - intros R1 e R2 h0 w0 w0' -> Hnone Hanswer0.
    rewrite run_getAllMissingDependencies, Hanswer0. simpl. f_equal.
    unfold missingDependenciesOf, runningIdsOf.
    rewrite !fold_left_app. simpl.
    unfold missingFrom at 2 5. rewrite Hnone. reflexivity.
Qed.

End Missing.

(** ** [Promise.all] *)

Lemma settled_In (p : PromiseId) (seen : list PromiseId) :
  settled p seen = true <-> In p seen.
Proof.
  unfold settled. rewrite existsb_exists. split.
  - intros [q [Hq Heq]]. apply Nat.eqb_eq in Heq. now subst.
  - intros Hp. exists p. split; [assumption | apply Nat.eqb_refl].
Qed.

Lemma fate_head (p : PromiseId) (s : Settlement) (tl : Timeline) :
  fate ((p, s) :: tl) p = Some s.
Proof. unfold fate. simpl. now rewrite Nat.eqb_refl. Qed.

Lemma fate_later (p q : PromiseId) (s : Settlement) (tl : Timeline) :
  q <> p -> fate ((q, s) :: tl) p = fate tl p.
Proof.
  intros Hne. unfold fate. simpl.
  destruct (Nat.eqb_spec q p); [contradiction | reflexivity].
Qed.

Lemma settled_head (p q : PromiseId) (seen : list PromiseId) :
  settled p (q :: seen) = false -> q <> p /\ settled p seen = false.
Proof.
  unfold settled. simpl. intros H. apply orb_false_iff in H. destruct H as [H1 H2].
  split; [| assumption]. intros ->. now rewrite Nat.eqb_refl in H1.
Qed.

(** A rejection of [Promise.all] is the rejection of one of its promises. *)
Lemma first_rejection_sound (promises seen : list PromiseId) (tl : Timeline) (e : Failure) :
  first_rejection promises seen tl = Some e ->
  exists p, In p promises /\ settled p seen = false /\ fate tl p = Some (Rejects e).
Proof.
  revert seen. induction tl as [| [q s] tl IH]; intros seen; simpl; [discriminate |].
  destruct (settled q seen) eqn:Hq.
  - intros H. destruct (IH _ H) as [p [Hp [Hseen Hfate]]].
    exists p. repeat split; try assumption.
    rewrite fate_later; [assumption |]. intros ->. congruence.
  - destruct s as [| e0].
    + intros H. destruct (IH _ H) as [p [Hp [Hseen Hfate]]].
      apply settled_head in Hseen. destruct Hseen as [Hne Hseen].
      exists p. repeat split; try assumption. now rewrite fate_later.
    + destruct (settled q promises) eqn:Hin.
      * intros [= <-]. exists q. repeat split; try assumption.
        -- now apply settled_In.
        -- apply fate_head.
      * intros H. destruct (IH _ H) as [p [Hp [Hseen Hfate]]].
        apply settled_head in Hseen. destruct Hseen as [Hne Hseen].
        exists p. repeat split; try assumption. now rewrite fate_later.
Qed.

(** When one of its promises rejects, [Promise.all] rejects. *)
Lemma first_rejection_complete (promises seen : list PromiseId) (tl : Timeline)
  (p : PromiseId) (e : Failure) :
  In p promises -> settled p seen = false -> fate tl p = Some (Rejects e) ->
  exists e', first_rejection promises seen tl = Some e'.
Proof.
  intros Hp. revert seen. induction tl as [| [q s] tl IH]; intros seen Hseen Hfate.
  - discriminate.
  - simpl. destruct (settled q seen) eqn:Hq.
    + apply IH; [assumption |]. rewrite fate_later in Hfate; [assumption |].
      intros ->. congruence.
    + assert (Hstep : q <> p -> settled p (q :: seen) = false).
      { intros Hne. unfold settled in *. simpl. rewrite Hseen.
        destruct (Nat.eqb_spec p q); [now subst | reflexivity]. }
      destruct s as [| e0].
      * destruct (Nat.eq_dec q p) as [-> | Hne].
        -- rewrite fate_head in Hfate. discriminate.
        -- apply IH; [now apply Hstep | now rewrite fate_later in Hfate].
      * destruct (settled q promises) eqn:Hin; [now exists e0 |].
        destruct (Nat.eq_dec q p) as [-> | Hne].
        -- apply settled_In in Hp. congruence.
        -- apply IH; [now apply Hstep | now rewrite fate_later in Hfate].
Qed.

Lemma resolves_fate (tl : Timeline) (p : PromiseId) :
  resolves tl p = true <-> fate tl p = Some Resolves.
Proof.
  unfold resolves. destruct (fate tl p) as [[| e] |]; split; congruence.
Qed.

(** [Promise.all] is fulfilled exactly when each of its promises is. *)
Lemma promiseAll_fulfilled (promises : list PromiseId) (tl : Timeline) :
  promiseAll promises tl = Fulfilled tt <->
  forall p, In p promises -> fate tl p = Some Resolves.
Proof.
  unfold promiseAll. split.
  - destruct (first_rejection promises [] tl); [discriminate |].
    destruct (forallb (resolves tl) promises) eqn:Hall; [| discriminate].
    intros _ p Hp. rewrite forallb_forall in Hall. now apply resolves_fate, Hall.
  - intros Hall. destruct (first_rejection promises [] tl) as [e |] eqn:Hfirst.
    + apply first_rejection_sound in Hfirst. destruct Hfirst as [p [Hp [_ Hfate]]].
      rewrite (Hall p Hp) in Hfate. discriminate.
    + replace (forallb (resolves tl) promises) with true; [reflexivity |].
      symmetry. apply forallb_forall. intros p Hp. now apply resolves_fate, Hall.
Qed.

(** [Promise.all] rejects exactly when one of its promises does, and with the
    reason of one of them. *)
Lemma promiseAll_rejected (promises : list PromiseId) (tl : Timeline) :
  (exists p e, In p promises /\ fate tl p = Some (Rejects e)) ->
  exists p e, In p promises /\ fate tl p = Some (Rejects e) /\
              promiseAll promises tl = Rejected e.
Proof.
  intros [p [e [Hp Hfate]]]. unfold promiseAll.
  destruct (first_rejection_complete promises [] tl p Hp eq_refl Hfate) as [e' He'].
  rewrite He'. destruct (first_rejection_sound _ _ _ He') as [p' [Hp' [_ Hfate']]].
  exists p', e'. now repeat split.
Qed.

Lemma promiseAll_cases (promises : list PromiseId) (tl : Timeline) :
  promiseAll promises tl =
  if forallb (resolves tl) promises then Fulfilled tt
  else match first_rejection promises [] tl with
       | Some e => Rejected e
       | None => NeverSettles
       end.
Proof.
  destruct (forallb (resolves tl) promises) eqn:Hall.
  - apply promiseAll_fulfilled. intros p Hp.
    rewrite forallb_forall in Hall. now apply resolves_fate, Hall.
  - unfold promiseAll. rewrite Hall. reflexivity.
Qed.

(** ** The other methods *)

Section Methods.

Variable toLowerCase : string -> string.
Variable areSameExtensions : IExtensionIdentifier.t -> IExtensionIdentifier.t -> bool.
Variable localize : string -> string -> string.
Variable W : Type.
Variable h : Host W.

Ltac sequence := cbn [bind ret Monad_prog]; rewrite run_pbind.

Lemma run_getUninstalledMissingDependencies (w : W) :
  run h (getUninstalledMissingDependencies toLowerCase areSameExtensions) w =
  let all := run h (getAllMissingDependencies toLowerCase) w in
  match outcome all with
  | Returned allMissingDependencies =>
      {| outcome :=
           match fst (respond h QueryLocal (final all)) with
           | Fulfilled localExtensions =>
               Returned (filter (notInstalled areSameExtensions localExtensions)
                           allMissingDependencies)
           | Rejected e => Threw e
           | NeverSettles => Suspended
           end;
         trace := trace all ++ [Ev QueryLocal (fst (respond h QueryLocal (final all)))];
         final := snd (respond h QueryLocal (final all)) |}
  | Threw e => {| outcome := Threw e; trace := trace all; final := final all |}
  | Suspended => {| outcome := Suspended; trace := trace all; final := final all |}
  end.
Proof.
  unfold getUninstalledMissingDependencies. sequence.
  destruct (run h (getAllMissingDependencies toLowerCase) w) as [[all | e |] t w1];
    try reflexivity.
  simpl. destruct (respond h QueryLocal w1) as [[L | e |] w2]; reflexivity.
Qed.

(** Computing the list takes two calls at most, none of them a notification,
    a gallery query, an install or a start. *)
Lemma getUninstalledMissingDependencies_calls (w : W) (ev : Event) :
  In ev (trace (run h (getUninstalledMissingDependencies toLowerCase areSameExtensions) w)) ->
  is_notification ev = false /\ is_gallery_query ev = false /\
  is_install ev = false /\ is_start ev = false.
Proof.
  rewrite run_getUninstalledMissingDependencies, run_getAllMissingDependencies.
  cbn [outcome trace final].
  destruct (fst (respond h GetExtensions w)); cbn [trace app In];
    intros H; repeat destruct H as [<- | H]; try contradiction; now repeat split.
Qed.

Lemma notInstalled_false (localExtensions : list IExtension.t) (id : string) :
  notInstalled areSameExtensions localExtensions id = false <->
  exists l, In l localExtensions /\
            areSameExtensions (IExtension.identifier l) (IExtensionIdentifier.Build id None)
            = true.
Proof.
  unfold notInstalled. induction localExtensions as [| l ls IH]; simpl.
  - split; [discriminate | intros [l [[] _]]].
  - rewrite andb_false_iff, negb_false_iff, IH. split.
    + intros [H | [l' [Hl' H]]]; [exists l; split; [now left | assumption] |].
      exists l'. split; [now right | assumption].
    + intros [l' [[<- | Hl'] H]]; [now left | right; now exists l'].
Qed.

(** C4.  In a run in which [getAllMissingDependencies] returns [all] and the
    local query answers [locals], [getUninstalledMissingDependencies] returns
    identifiers of [all] only, and an identifier of [all] is left out exactly
    when [areSameExtensions] matches it with the identifier of some extension
    of [locals]. *)
Theorem getUninstalledMissingDependencies_filters_installed
  (w w2 : W) (all : list string) (locals : list IExtension.t) :
  outcome (run h (getAllMissingDependencies toLowerCase) w) = Returned all ->
  respond h QueryLocal (final (run h (getAllMissingDependencies toLowerCase) w))
  = (Fulfilled locals, w2) ->
  exists uninstalled,
    outcome (run h (getUninstalledMissingDependencies toLowerCase areSameExtensions) w)
    = Returned uninstalled /\
    (forall id, In id uninstalled -> In id all) /\
    (forall id,
        In id all ->
        (~ In id uninstalled <->
         exists l,
           In l locals /\
           areSameExtensions (IExtension.identifier l) (IExtensionIdentifier.Build id None)
           = true)).
Proof.
  intros Hall Hlocal.
  exists (filter (notInstalled areSameExtensions locals) all).
  rewrite run_getUninstalledMissingDependencies. cbn zeta. rewrite Hall, Hlocal.
  split; [reflexivity | split].
  - intros id Hid. now apply filter_In in Hid.
  - intros id Hid. rewrite <- notInstalled_false, filter_In. split.
    + intros Hout. destruct (notInstalled areSameExtensions locals id); [| reflexivity].
      exfalso. apply Hout. now split.
    + intros Hfalse [_ Htrue]. congruence.
Qed.

(** C6.  In a run of [installMissingDependencies] in which the list of
    uninstalled missing dependencies is empty, the method calls
    [notificationService.info] once with the message of key [no missing deps]
    and returns; that is the only notification, and there is no gallery query
    and no install. *)
Theorem installMissingDependencies_nothing_missing (w : W) :
  outcome (run h (getUninstalledMissingDependencies toLowerCase areSameExtensions) w)
  = Returned [] ->
  let listing := run h (getUninstalledMissingDependencies toLowerCase areSameExtensions) w in
  let r := run h (installMissingDependencies toLowerCase areSameExtensions localize) w in
  outcome r = Returned tt /\
  trace r =
    trace listing ++
    [Ev (NotifyInfo (localize "no missing deps" "There are no missing dependencies to install."))
       tt] /\
  length (filter is_notification (trace r)) = 1 /\
  filter is_gallery_query (trace r) = [] /\
  filter is_install (trace r) = [].
Proof.
  intros Hempty. cbn zeta.
  pose proof (getUninstalledMissingDependencies_calls w) as Hcalls.
  unfold installMissingDependencies. sequence.
  destruct (run h (getUninstalledMissingDependencies toLowerCase areSameExtensions) w)
    as [o t w1].
  cbn [outcome trace final] in *. subst o. cbn [truthy_length length Nat.eqb negb].
  cbn zeta. rewrite run_call. cbn [outcome trace final].
  unfold noMissingDependenciesMessage.
  destruct (fst (respond h (NotifyInfo (localize "no missing deps" _)) w1)).
  rewrite !filter_app.
  rewrite (filter_none is_notification t), (filter_none is_gallery_query t),
    (filter_none is_install t); try (intros ev Hev; now apply Hcalls).
  now repeat split.
Qed.

(** C7.  In a run of [installMissingDependencies] in which the list of
    uninstalled missing dependencies is not empty and the first page of the
    gallery's answer is empty, the method returns after the query: no
    notification and no install. *)
Theorem installMissingDependencies_nothing_found
  (w w1 : W) (missing : list string) (pager : IPager.t) :
  outcome (run h (getUninstalledMissingDependencies toLowerCase areSameExtensions) w)
  = Returned missing ->
  missing <> [] ->
  respond h (QueryGallery (IQueryOptions.Build missing (length missing)))
    (final (run h (getUninstalledMissingDependencies toLowerCase areSameExtensions) w))
  = (Fulfilled pager, w1) ->
  IPager.firstPage pager = [] ->
  let listing := run h (getUninstalledMissingDependencies toLowerCase areSameExtensions) w in
  let r := run h (installMissingDependencies toLowerCase areSameExtensions localize) w in
  outcome r = Returned tt /\
  trace r =
    trace listing ++
    [Ev (QueryGallery (IQueryOptions.Build missing (length missing))) (Fulfilled pager)] /\
  filter is_notification (trace r) = [] /\
  filter is_install (trace r) = [].
Proof.
  intros Hmissing Hnonempty Hgallery Hpage. cbn zeta.
  pose proof (getUninstalledMissingDependencies_calls w) as Hcalls.
  unfold installMissingDependencies. sequence.
  destruct (run h (getUninstalledMissingDependencies toLowerCase areSameExtensions) w)
    as [o t w0].
  cbn [outcome trace final] in *. subst o.
  rewrite (truthy_length_nonempty Hnonempty). cbn zeta.
  rewrite run_pbind, run_await, Hgallery. cbn [outcome trace final fst snd].
  rewrite Hpage. cbn [truthy_length length Nat.eqb negb run outcome trace final].
  rewrite app_nil_r, !filter_app.
  rewrite (filter_none is_notification t), (filter_none is_install t);
    try (intros ev Hev; now apply Hcalls).
  now repeat split.
Qed.

(** The run of [installMissingDependencies] once the gallery has found
    something: the installs, the await of all of them and, when they are all
    fulfilled, the notification. *)
Lemma run_installMissingDependencies_found
  (w w1 w2 w3 : W) (missing : list string) (pager : IPager.t)
  (promises : list PromiseId) (tl : Timeline) :
  outcome (run h (getUninstalledMissingDependencies toLowerCase areSameExtensions) w)
  = Returned missing ->
  missing <> [] ->
  respond h (QueryGallery (IQueryOptions.Build missing (length missing)))
    (final (run h (getUninstalledMissingDependencies toLowerCase areSameExtensions) w))
  = (Fulfilled pager, w1) ->
  IPager.firstPage pager <> [] ->
  installations h (IPager.firstPage pager) w1 = (promises, w2) ->
  respond h (AwaitAll promises) w2 = (tl, w3) ->
  run h (installMissingDependencies toLowerCase areSameExtensions localize) w =
  {| outcome :=
       match promiseAll promises tl with
       | Fulfilled _ => Returned tt
       | Rejected e => Threw e
       | NeverSettles => Suspended
       end;
     trace :=
       trace (run h (getUninstalledMissingDependencies toLowerCase areSameExtensions) w) ++
       Ev (QueryGallery (IQueryOptions.Build missing (length missing))) (Fulfilled pager)
       :: installCalls (IPager.firstPage pager) promises ++
       Ev (AwaitAll promises) tl
       :: match promiseAll promises tl with
          | Fulfilled _ => [Ev (Notify (finishedNotification localize)) tt]
          | _ => []
          end;
     final :=
       match promiseAll promises tl with
       | Fulfilled _ => snd (respond h (Notify (finishedNotification localize)) w3)
       | _ => w3
       end |}.
Proof.
  intros Hmissing Hnonempty Hgallery Hpage Hinstalls Hawait.
  unfold installMissingDependencies. sequence.
  destruct (run h (getUninstalledMissingDependencies toLowerCase areSameExtensions) w)
    as [o t w0].
  cbn [outcome trace final] in *. subst o.
  rewrite (truthy_length_nonempty Hnonempty). cbn zeta.
  rewrite run_pbind, run_await, Hgallery. cbn [outcome trace final fst snd].
  rewrite (truthy_length_nonempty Hpage).
  rewrite run_pbind, run_installs, Hinstalls. cbn [outcome trace final fst snd].
  cbn zeta. rewrite run_pbind, run_awaitAll, Hawait. cbn [outcome trace final fst snd].
  destruct (promiseAll promises tl) as [[] | e |].
  - rewrite run_call. cbn [outcome trace final].
    destruct (fst (respond h (Notify (finishedNotification localize)) w3)).
    cbn [app]. rewrite <- ?app_assoc. reflexivity.
  - cbn [app]. rewrite <- ?app_assoc. reflexivity.
  - cbn [app]. rewrite <- ?app_assoc. reflexivity.
Qed.

Lemma found_trace_filters (t : list Event) (q : Event) (extensions : list IExtension.t)
  (promises : list PromiseId) (tl : Timeline) (tail : list Event) :
  (forall ev, In ev t ->
     is_notification ev = false /\ is_gallery_query ev = false /\
     is_install ev = false /\ is_start ev = false) ->
  is_notification q = false -> is_install q = false ->
  let whole := t ++ q :: installCalls extensions promises ++ Ev (AwaitAll promises) tl :: tail in
  filter is_install whole = installCalls extensions promises ++ filter is_install tail /\
  filter is_notification whole = filter is_notification tail.
Proof.
  intros Hcalls Hq1 Hq2. cbn zeta.
  destruct (installCalls_installs extensions promises) as [H1 [H2 _]].
  rewrite !filter_app. cbn [filter]. rewrite !filter_app. cbn [filter is_install is_notification].
  rewrite Hq1, Hq2, H1, H2.
  rewrite (filter_none is_notification t), (filter_none is_install t);
    try (intros ev Hev; now apply Hcalls).
  split; reflexivity.
Qed.

(** C3.  In a run of [installMissingDependencies] in which the list of
    uninstalled missing dependencies is not empty and the first page of the
    gallery's answer holds N > 0 extensions: [install] is called once for each
    of the N, in order, with no other call in between, then all N promises are
    awaited together; when all N are fulfilled, [notify] is called once after
    that, with severity [Info], the message of key
    [finished installing missing deps] and one action that reloads the
    window, and the method returns; and a notification is shown only when all
    N are fulfilled. *)
Theorem installMissingDependencies_installs_found
  (w w1 w2 w3 : W) (missing : list string) (pager : IPager.t)
  (promises : list PromiseId) (tl : Timeline) :
  outcome (run h (getUninstalledMissingDependencies toLowerCase areSameExtensions) w)
  = Returned missing ->
  missing <> [] ->
  respond h (QueryGallery (IQueryOptions.Build missing (length missing)))
    (final (run h (getUninstalledMissingDependencies toLowerCase areSameExtensions) w))
  = (Fulfilled pager, w1) ->
  IPager.firstPage pager <> [] ->
  installations h (IPager.firstPage pager) w1 = (promises, w2) ->
  respond h (AwaitAll promises) w2 = (tl, w3) ->
  let listing := run h (getUninstalledMissingDependencies toLowerCase areSameExtensions) w in
  let r := run h (installMissingDependencies toLowerCase areSameExtensions localize) w in
  let finished :=
    INotification.Build Info
      (localize "finished installing missing deps"
         "Finished installing missing dependencies. Please reload the window now.")
      [Action.Build "realod" (localize "reload" "Realod Window") "" true CallReloadWindow] in
  length promises = length (IPager.firstPage pager) /\
  trace r =
    trace listing ++
    Ev (QueryGallery (IQueryOptions.Build missing (length missing))) (Fulfilled pager)
    :: installCalls (IPager.firstPage pager) promises ++
    Ev (AwaitAll promises) tl
    :: (if forallb (resolves tl) promises then [Ev (Notify finished) tt] else []) /\
  filter is_install (trace r) = installCalls (IPager.firstPage pager) promises /\
  ((forall p, In p promises -> fate tl p = Some Resolves) ->
   filter is_notification (trace r) = [Ev (Notify finished) tt] /\
   outcome r = Returned tt) /\
  (filter is_notification (trace r) <> [] ->
   forall p, In p promises -> fate tl p = Some Resolves) /\
  map (fun a => invoke (Action.actionCallback a)) (INotification.primary finished)
  = [call ReloadWindow].
Proof.
  intros Hmissing Hnonempty Hgallery Hpage Hinstalls Hawait. cbn zeta.
  rewrite (run_installMissingDependencies_found w Hmissing Hnonempty Hgallery Hpage
             Hinstalls Hawait).
  cbn [outcome trace final].
  pose proof (getUninstalledMissingDependencies_calls w) as Hcalls.
  fold (finishedNotification localize).
  set (t := trace (run h (getUninstalledMissingDependencies toLowerCase areSameExtensions) w))
    in *.
  set (q := Ev (QueryGallery (IQueryOptions.Build missing (length missing))) (Fulfilled pager)).
  assert (Hlen : length promises = length (IPager.firstPage pager)).
  { pose proof (installations_length h (IPager.firstPage pager) w1) as H.
    now rewrite Hinstalls in H. }
  assert (Hfilters := fun tail =>
    found_trace_filters t q (IPager.firstPage pager) promises tl tail Hcalls eq_refl eq_refl).
  cbn zeta in Hfilters.
  rewrite promiseAll_cases.
  destruct (forallb (resolves tl) promises) eqn:Hall.
  - destruct (Hfilters [Ev (Notify (finishedNotification localize)) tt]) as [Hi Hn].
    rewrite Hi, Hn. cbn [filter is_install is_notification]. rewrite app_nil_r.
    repeat split; try reflexivity; try assumption.
    intros _ p Hp. rewrite forallb_forall in Hall. now apply resolves_fate, Hall.
  - destruct (Hfilters []) as [Hi Hn].
    destruct (first_rejection promises [] tl);
      (rewrite Hi, Hn; cbn [filter]; rewrite app_nil_r;
       assert (Hnot : ~ (forall p, In p promises -> fate tl p = Some Resolves))
         by (intros H; apply Bool.not_true_iff_false in Hall; apply Hall;
             apply forallb_forall; intros p Hp; now apply resolves_fate, H);
       repeat split; try reflexivity; try assumption; try contradiction;
       intros H; contradiction).
Qed.

(** C8.  In a run of [installMissingDependencies] in which the installs were
    issued and one of their promises rejects, the method throws the reason of
    a rejected install; every install call has been made by then; the await
    is the last call of the run, so that there is no notification and nothing
    is done about the other installs. *)
Theorem installMissingDependencies_install_rejects
  (w w1 w2 w3 : W) (missing : list string) (pager : IPager.t)
  (promises : list PromiseId) (tl : Timeline) :
  outcome (run h (getUninstalledMissingDependencies toLowerCase areSameExtensions) w)
  = Returned missing ->
  missing <> [] ->
  respond h (QueryGallery (IQueryOptions.Build missing (length missing)))
    (final (run h (getUninstalledMissingDependencies toLowerCase areSameExtensions) w))
  = (Fulfilled pager, w1) ->
  IPager.firstPage pager <> [] ->
  installations h (IPager.firstPage pager) w1 = (promises, w2) ->
  respond h (AwaitAll promises) w2 = (tl, w3) ->
  (exists p e, In p promises /\ fate tl p = Some (Rejects e)) ->
  let listing := run h (getUninstalledMissingDependencies toLowerCase areSameExtensions) w in
  let r := run h (installMissingDependencies toLowerCase areSameExtensions localize) w in
  (exists p e, In p promises /\ fate tl p = Some (Rejects e) /\ outcome r = Threw e) /\
  trace r =
    trace listing ++
    Ev (QueryGallery (IQueryOptions.Build missing (length missing))) (Fulfilled pager)
    :: installCalls (IPager.firstPage pager) promises ++
    [Ev (AwaitAll promises) tl] /\
  final r = w3 /\
  filter is_install (trace r) = installCalls (IPager.firstPage pager) promises /\
  length (installCalls (IPager.firstPage pager) promises) = length (IPager.firstPage pager) /\
  filter is_notification (trace r) = [].
Proof.
  intros Hmissing Hnonempty Hgallery Hpage Hinstalls Hawait Hrejects. cbn zeta.
  rewrite (run_installMissingDependencies_found w Hmissing Hnonempty Hgallery Hpage
             Hinstalls Hawait).
  cbn [outcome trace final].
  pose proof (getUninstalledMissingDependencies_calls w) as Hcalls.
  destruct (promiseAll_rejected promises tl Hrejects) as [p [e [Hp [Hfate Hall]]]].
  rewrite Hall.
  destruct (found_trace_filters
              (trace (run h (getUninstalledMissingDependencies toLowerCase
                               areSameExtensions) w))
              (Ev (QueryGallery (IQueryOptions.Build missing (length missing)))
                 (Fulfilled pager))
              (IPager.firstPage pager) promises tl [] Hcalls eq_refl eq_refl) as [Hi Hn].
  rewrite Hi, Hn. cbn [filter]. rewrite app_nil_r.
  repeat split; try reflexivity.
  - exists p, e. now repeat split.
  - unfold installCalls. rewrite length_map, length_combine.
    pose proof (installations_length h (IPager.firstPage pager) w1) as H.
    rewrite Hinstalls in H. cbn [fst] in H. rewrite H. apply Nat.min_id.
Qed.

Lemma getUninstalledMissingDependencies_starts_nothing :
  starts_nothing (getUninstalledMissingDependencies toLowerCase areSameExtensions).
Proof.
  unfold getUninstalledMissingDependencies, getAllMissingDependencies.
  cbn [bind ret Monad_prog].
  repeat (apply starts_nothing_pbind; [| intros ?]).
  - intros [R | e |]; exact I.
  - rewrite for_of_missing. exact I.
  - exact I.
  - intros [L | e |]; exact I.
  - exact I.
Qed.

Lemma installMissingDependencies_starts_nothing :
  starts_nothing (installMissingDependencies toLowerCase areSameExtensions localize).
Proof.
  unfold installMissingDependencies. cbn [bind ret Monad_prog].
  apply starts_nothing_pbind; [apply getUninstalledMissingDependencies_starts_nothing |].
  intros missing. destruct (truthy_length missing); [| intros r; exact I].
  apply starts_nothing_pbind; [intros [pager | e |]; exact I |].
  intros pager. destruct (truthy_length (IPager.firstPage pager)); [| exact I].
  apply starts_nothing_pbind.
  - induction (IPager.firstPage pager) as [| e es IH]; [exact I |].
    cbn [mapM bind ret Monad_prog]. intros p. cbn [pbind].
    apply starts_nothing_pbind; [exact IH | intros ps; exact I].
  - intros promises. apply starts_nothing_pbind; [| intros _ r; exact I].
    intros tl. destruct (promiseAll promises tl); exact I.
Qed.

(** C2.  In every run of [checkAndInstallMissingDependencies],
    [installMissingDependencies] is started exactly when the list of
    uninstalled missing dependencies was computed and is not empty and the
    setting [extensions.autoInstallMissingDependencies] reads as true; it is
    then the last thing the method does; and in a run in which it is not
    started there is no gallery query and no notification. *)
Theorem checkAndInstallMissingDependencies_starts_install (w : W) :
  let listing := run h (getUninstalledMissingDependencies toLowerCase areSameExtensions) w in
  let r :=
    run h (checkAndInstallMissingDependencies toLowerCase areSameExtensions localize) w in
  let install := installMissingDependencies toLowerCase areSameExtensions localize in
  let setting := respond h (GetValue "extensions.autoInstallMissingDependencies") (final listing) in
  (In (Started install) (trace r) <->
   exists missing,
     outcome listing = Returned missing /\ missing <> [] /\ fst setting = true) /\
  (In (Started install) (trace r) ->
   trace r =
     trace listing ++
     Ev (GetValue "extensions.autoInstallMissingDependencies") true
     :: Started install :: trace (run h install (snd setting))) /\
  (~ In (Started install) (trace r) ->
   filter is_gallery_query (trace r) = [] /\ filter is_notification (trace r) = []).
Proof.
  cbn zeta.
  pose proof (getUninstalledMissingDependencies_calls w) as Hcalls.
  assert (Hinstall : forall w', ~ In (Started (installMissingDependencies toLowerCase
                                                 areSameExtensions localize))
                                     (trace (run h (installMissingDependencies toLowerCase
                                                      areSameExtensions localize) w'))).
  { intros w' Hin.
    apply (starts_nothing_run h _ w' _ installMissingDependencies_starts_nothing) in Hin.
    discriminate. }
  unfold checkAndInstallMissingDependencies. sequence.
  fold autoInstallMissingDependencies.
  destruct (run h (getUninstalledMissingDependencies toLowerCase areSameExtensions) w)
    as [o t w1].
  cbn [outcome trace final] in *.
  assert (Hquiet : forall p, ~ In (Started p) t).
  { intros p Hin. apply Hcalls in Hin. destruct Hin as [_ [_ [_ Hin]]]. discriminate. }
  assert (Hg : filter is_gallery_query t = [])
    by (apply filter_none; intros ev Hev; now apply Hcalls).
  assert (Hn : filter is_notification t = [])
    by (apply filter_none; intros ev Hev; now apply Hcalls).
  destruct o as [[| d ds] | e |]; cbn [Nat.ltb Nat.leb length run outcome trace final];
    rewrite ?app_nil_r.
  - repeat split; try (intros Hin; now apply Hquiet in Hin); try assumption.
    intros [missing [[= <-] [Hne _]]]. contradiction.
  - cbn zeta. rewrite run_pbind, run_call. cbn [outcome trace final].
    destruct (respond h (GetValue autoInstallMissingDependencies) w1) as [[|] w2];
      cbn [fst snd].
    + rewrite run_start. cbn [outcome trace final app].
      assert (Hin : In (Started (installMissingDependencies toLowerCase
                                   areSameExtensions localize))
                      (t ++ Ev (GetValue autoInstallMissingDependencies) true
                         :: Started (installMissingDependencies toLowerCase
                                       areSameExtensions localize)
                         :: trace (run h (installMissingDependencies toLowerCase
                                            areSameExtensions localize) w2)))
        by (apply in_or_app; right; right; now left).
      split; [split | split].
      * intros _. exists (d :: ds). repeat split. discriminate.
      * intros _. exact Hin.
      * reflexivity.
      * intros Hnot. contradiction.
    + cbn [run outcome trace final]. rewrite app_nil_r.
      assert (Hnone : ~ In (Started (installMissingDependencies toLowerCase
                                       areSameExtensions localize))
                        (t ++ [Ev (GetValue autoInstallMissingDependencies) false])).
      { intros Hin. apply in_app_or in Hin.
        destruct Hin as [Hin | [Hin | []]]; [now apply Hquiet in Hin | discriminate]. }
      repeat split; try (intros Hin; now apply Hnone in Hin).
      * intros [missing [_ [_ Hflag]]]. discriminate.
      * rewrite filter_app, Hg. reflexivity.
      * rewrite filter_app, Hn. reflexivity.
  - repeat split; try (intros Hin; now apply Hquiet in Hin); try assumption.
    intros [missing [[=] _]].
  - repeat split; try (intros Hin; now apply Hquiet in Hin); try assumption.
    intros [missing [[=] _]].
Qed.

End Methods.

(** ** The contribution *)

Lemma gated_pbind (A B : Type) (m : prog A) (f : A -> prog B) :
  gated m -> (forall a, gated (f a)) -> gated (pbind m f).
Proof.
  intros Hm Hf. induction m as [A a | A e | A | A X c k IH | A child _ k IH]; simpl in *.
  - apply Hf.
  - exact I.
  - exact I.
  - destruct Hm as [Hc Hk]. split; [assumption |].
    intros r. destruct (Hk r) as [Hr | Hr]; [now left | right; now apply IH].
  - destruct Hm as [Hchild Hk]. split; [assumption | now apply IH].
Qed.

Lemma reads_flag_true (X : Type) (c : ServiceCall X) (r : X) :
  reads_flag c r = true -> Ev c r = Ev (GetValue autoInstallMissingDependencies) true.
Proof.
  destruct c; simpl; try discriminate.
  intros H. apply andb_true_iff in H. destruct H as [Hkey ->].
  apply String.eqb_eq in Hkey. now subst.
Qed.

Lemma notifies_is_notification (X : Type) (c : ServiceCall X) (r : X) :
  is_notification (Ev c r) = notifies c.
Proof. reflexivity. Qed.

Lemma snoc_split (A : Type) (l pre post : list A) (x y : A) :
  l ++ [x] = pre ++ y :: post ->
  (pre = l /\ y = x /\ post = []) \/
  (exists post', post = post' ++ [x] /\ l = pre ++ y :: post').
Proof.
  destruct post as [| z post] using rev_ind.
  - intros H. apply app_inj_tail in H. destruct H as [-> ->]. now left.
  - intros H. change (pre ++ y :: post ++ [z]) with (pre ++ (y :: post) ++ [z]) in H.
    rewrite app_assoc in H. apply app_inj_tail in H. destruct H as [-> ->].
    right. now exists post.
Qed.

Lemma update_In (A : Type) (n : nat) (x y : A) (xs : list A) :
  In y (update n x xs) -> y = x \/ In y xs.
Proof.
  revert n. induction xs as [| z xs IH]; intros [| n]; simpl; try (intros []; fail).
  - intros [<- | H]; [now left | right; now right].
  - intros [<- | H]; [right; now left |].
    destruct (IH n H) as [-> | H']; [now left | right; now right].
Qed.

Lemma nth_error_snoc_old (A : Type) (xs : list A) (x y : A) (n : nat) :
  nth_error xs n = Some y -> nth_error (xs ++ [x]) n = Some y.
Proof.
  intros H. rewrite nth_error_app1; [assumption |].
  apply nth_error_Some. congruence.
Qed.

Lemma nth_error_snoc_new (A : Type) (xs : list A) (x : A) :
  nth_error (xs ++ [x]) (length xs) = Some x.
Proof. rewrite nth_error_app2, Nat.sub_diag; [reflexivity | lia]. Qed.

Section Contribution.

Variable toLowerCase : string -> string.
Variable areSameExtensions : IExtensionIdentifier.t -> IExtensionIdentifier.t -> bool.
Variable localize : string -> string -> string.

Abbreviation install := (installMissingDependencies toLowerCase areSameExtensions localize).
Abbreviation check :=
  (checkAndInstallMissingDependencies toLowerCase areSameExtensions localize).
Abbreviation listener := (onDidChangeConfiguration toLowerCase areSameExtensions localize).
Abbreviation sound := (consistent toLowerCase areSameExtensions localize).

Lemma getUninstalledMissingDependencies_gated :
  gated (getUninstalledMissingDependencies toLowerCase areSameExtensions).
Proof.
  unfold getUninstalledMissingDependencies, getAllMissingDependencies.
  cbn [bind ret Monad_prog].
  repeat (apply gated_pbind; [| intros ?]).
  - split; [reflexivity |]. intros [R | e |]; right; exact I.
  - rewrite for_of_missing. exact I.
  - exact I.
  - split; [reflexivity |]. intros [L | e |]; right; exact I.
  - exact I.
Qed.

(** The automatic check cannot notify before it has read the setting as
    true. *)
Lemma checkAndInstallMissingDependencies_gated : gated check.
Proof.
  unfold checkAndInstallMissingDependencies. cbn [bind ret Monad_prog].
  apply gated_pbind; [apply getUninstalledMissingDependencies_gated |].
  intros missing. destruct (Nat.ltb 0 (length missing)); [| exact I].
  cbn [call pbind]. split; [reflexivity |].
  intros [|]; [left | right; exact I].
  cbn [reads_flag]. now rewrite String.eqb_refl.
Qed.

Lemma listener_gated (e : IConfigurationChangeEvent) : gated (listener e).
Proof.
  unfold onDidChangeConfiguration.
  destruct (affectsConfiguration e autoInstallMissingDependencies); [| exact I].
  split; [apply checkAndInstallMissingDependencies_gated | exact I].
Qed.

Lemma caused_origins (wb wb' : Workbench) (a : nat) (before : list (nat * Event)) :
  (forall o, nth_error (origins wb) a = Some o -> nth_error (origins wb') a = Some o) ->
  caused wb a before -> caused wb' a before.
Proof.
  intros Hkeep [H | [H K]]; [left | right; split]; auto.
Qed.

(** A new activation keeps the workbench consistent when it is the command
    or a program that reads the setting first. *)
Lemma activate_consistent (o : Origin) (p : prog unit) (wb : Workbench) :
  sound wb ->
  o = CommandInvocation installMissingDepenencies \/ (o = AutomaticCheck /\ gated p) ->
  sound (activate o p wb).
Proof.
  intros [Hc Hl Ht Hn] Ho. split; cbn [activate commands listeners tasks origins log].
  - exact Hc.
  - exact Hl.
  - intros a q Hin. apply in_app_or in Hin. destruct Hin as [Hin | [[= <- <-] | []]].
    + destruct (Ht a q Hin) as [H | [H K]].
      * left. now apply nth_error_snoc_old.
      * right. split; [now apply nth_error_snoc_old | assumption].
    + rewrite nth_error_snoc_new. destruct Ho as [-> | [-> Hp]]; [now left |].
      right. split; [reflexivity | now right].
  - intros pre a ev post Hlog Hev.
    apply caused_origins with (wb := wb); [| now apply (Hn pre a ev post)].
    intros o' Ho'. now apply nth_error_snoc_old.
Qed.

Lemma construct_consistent (wb : Workbench) :
  sound wb -> sound (construct toLowerCase areSameExtensions localize wb).
Proof.
  intros [Hc Hl Ht Hn]. unfold construct. apply activate_consistent.
  - split; cbn [commands listeners tasks origins log].
    + intros id handler Hin. apply in_app_or in Hin.
      destruct Hin as [Hin | [[= <- <-] | []]]; [now apply Hc | now split].
    + intros l Hin. apply in_app_or in Hin.
      destruct Hin as [Hin | [<- | []]]; [now apply Hl | reflexivity].
    + exact Ht.
    + exact Hn.
  - right. split; [reflexivity |].
    split; [apply checkAndInstallMissingDependencies_gated | exact I].
Qed.

Lemma fire_consistent (e : IConfigurationChangeEvent)
  (ls : list (IConfigurationChangeEvent -> prog unit)) (wb : Workbench) :
  (forall l, In l ls -> l = listener) ->
  sound wb ->
  sound (fold_left (fun w l => activate AutomaticCheck (l e) w) ls wb).
Proof.
  revert wb. induction ls as [| l ls IH]; intros wb Hls Hwb; simpl; [assumption |].
  apply IH; [intros l' Hl'; apply Hls; now right |].
  apply activate_consistent; [assumption |].
  right. split; [reflexivity |]. rewrite (Hls l (or_introl eq_refl)). apply listener_gated.
Qed.

Lemma lookup_In (id : string) (registry : list (string * prog unit)) (handler : prog unit) :
  lookup id registry = Some handler -> In (id, handler) registry.
Proof.
  unfold lookup. destruct (find _ registry) as [[id' handler'] |] eqn:Hfind; [| discriminate].
  intros [= <-]. apply find_some in Hfind. destruct Hfind as [Hin Heq].
  apply String.eqb_eq in Heq. simpl in Heq. now subst.
Qed.

(** A step of a suspended program keeps the workbench consistent. *)
Lemma resume_consistent (wb : Workbench) (n a : nat) (p0 p : prog unit)
  (more : list (prog unit)) (what : Event) :
  sound wb ->
  nth_error (tasks wb) n = Some (a, p0) ->
  (gated p0 ->
   (what = Ev (GetValue autoInstallMissingDependencies) true \/
    (gated p /\ forall q, In q more -> gated q))) ->
  (is_notification what = true -> ~ gated p0) ->
  sound (resume n a p more what wb).
Proof.
  intros [Hc Hl Ht Hn] Hnth Hgated Hwhat.
  pose proof (Ht a p0 (nth_error_In _ _ Hnth)) as Hmine.
  assert (Hafter :
    nth_error (origins wb) a = Some (CommandInvocation installMissingDepenencies) \/
    (nth_error (origins wb) a = Some AutomaticCheck /\
     (In (a, Ev (GetValue autoInstallMissingDependencies) true) (log wb ++ [(a, what)]) \/
      (gated p /\ forall q, In q more -> gated q)))).
  { destruct Hmine as [H | [H [K | K]]]; [now left | |].
    - right. split; [assumption |]. left. apply in_or_app. now left.
    - right. split; [assumption |]. destruct (Hgated K) as [-> | K'].
      + left. apply in_or_app. right. now left.
      + now right. }
  split; cbn [resume commands listeners tasks origins log].
  - exact Hc.
  - exact Hl.
  - intros a' q Hin. apply in_app_or in Hin. destruct Hin as [Hin | Hin].
    + apply update_In in Hin. destruct Hin as [[= -> ->] | Hin].
      * destruct Hafter as [H | [H [K | [K _]]]]; [now left | right; split; auto ..].
      * destruct (Ht a' q Hin) as [H | [H [K | K]]]; [now left | right; split; auto ..].
        left. apply in_or_app. now left.
    + apply in_map_iff in Hin. destruct Hin as [q' [[= <- <-] Hq']].
      destruct Hafter as [H | [H [K | [_ K]]]]; [now left | right; split; auto ..].
  - intros pre a' ev post Hlog Hev. apply snoc_split in Hlog.
    destruct Hlog as [[-> [[= -> ->] ->]] | [post' [-> Hlog]]].
    + destruct Hmine as [H | [H [K | K]]].
      * now left.
      * right. now split.
      * exfalso. now apply Hwhat.
    + now apply (Hn pre a' ev post').
Qed.

Lemma step_consistent (wb wb' : Workbench) :
  sound wb -> step toLowerCase areSameExtensions localize wb wb' -> sound wb'.
Proof.
  intros Hwb Hstep.
  destruct Hstep as [wb _ | wb | wb e | wb id handler Hlookup
                    | wb n a X c k r Hnth | wb n a child k Hnth].
  - now apply construct_consistent.
  - destruct Hwb as [Hc Hl Ht Hn]. split; cbn [dispose commands listeners tasks origins log];
      try assumption. intros l [].
  - apply fire_consistent; [| assumption]. apply (listeners_subscribed Hwb).
  - apply lookup_In in Hlookup.
    destruct (commands_registered Hwb _ _ Hlookup) as [-> ->].
    apply activate_consistent; [assumption | now left].
  - apply resume_consistent with (p0 := Vis c k); [assumption | assumption | |].
    + intros [_ Hk]. destruct (Hk r) as [Hr | Hr].
      * left. now apply reads_flag_true.
      * right. split; [assumption | intros q []].
    + rewrite notifies_is_notification. intros Hc [Hc' _]. congruence.
  - apply resume_consistent with (p0 := Spawn child k); [assumption | assumption | |].
    + intros [Hchild Hk]. right. split; [assumption |].
      intros q [<- | []]. assumption.
    + discriminate.
Qed.

Lemma reachable_consistent (wb : Workbench) :
  reachable toLowerCase areSameExtensions localize wb -> sound wb.
Proof.
  induction 1 as [| wb wb' _ IH Hstep].
  - split; cbn [startup commands listeners tasks origins log].
    + intros id handler [].
    + intros l [].
    + intros a p [].
    + intros pre a ev post Hlog. destruct pre; discriminate.
  - exact (step_consistent IH Hstep).
Qed.

(** C10.  In every workbench the steps lead to, an activation that has shown
    a notification is an invocation of the command
    [workbench.extensions.installMissingDepenencies], or it is an automatic
    check (started by the constructor or by the configuration listener) that
    has read [extensions.autoInstallMissingDependencies] as true before
    showing it; so an automatic check that has not read the setting as true
    has shown no notification. *)
Theorem notifications_have_a_cause (wb : Workbench) :
  reachable toLowerCase areSameExtensions localize wb ->
  forall pre a ev post,
    log wb = pre ++ (a, ev) :: post ->
    is_notification ev = true ->
    nth_error (origins wb) a
    = Some (CommandInvocation "workbench.extensions.installMissingDepenencies") \/
    (nth_error (origins wb) a = Some AutomaticCheck /\
     In (a, Ev (GetValue "extensions.autoInstallMissingDependencies") true) pre).
Proof.
  intros Hreach pre a ev post Hlog Hev.
  exact (notifications_caused (reachable_consistent Hreach) pre a ev post Hlog Hev).
Qed.

End Contribution.

(** ** The contribution, continued *)

Section Scheduling.

Variable toLowerCase : string -> string.
Variable areSameExtensions : IExtensionIdentifier.t -> IExtensionIdentifier.t -> bool.
Variable localize : string -> string -> string.
Variable W : Type.
Variable h : Host W.

(** What [react] does is a step, or nothing. *)
Lemma react_step (s : Stimulus) (wb : Workbench) (w : W) :
  fst (react toLowerCase areSameExtensions localize h s (wb, w)) = wb \/
  step toLowerCase areSameExtensions localize wb
    (fst (react toLowerCase areSameExtensions localize h s (wb, w))).
Proof.
  destruct s as [| | e | id | n]; cbn [react].
  - destruct (constructed wb) eqn:Hc; [now left | right; now constructor].
  - right. constructor.
  - right. constructor.
  - destruct (lookup id (commands wb)) as [handler |] eqn:Hl; [| now left].
    right. now constructor.
  - destruct (nth_error (tasks wb) n) as [[a [u | e | | X c k | child k]] |] eqn:Hn;
      try (now left).
    + destruct (respond h c w) as [r w'] eqn:Hr. right. now apply step_answer.
    + right. now apply step_start.
Qed.

Lemma play_reachable (script : list Stimulus) (wb : Workbench) (w : W) :
  reachable toLowerCase areSameExtensions localize wb ->
  reachable toLowerCase areSameExtensions localize
    (fst (play toLowerCase areSameExtensions localize h script (wb, w))).
Proof.
  revert wb w. induction script as [| s script IH]; intros wb w Hwb; [assumption |].
  cbn [play fold_left].
  destruct (react toLowerCase areSameExtensions localize h s (wb, w)) as [wb' w'] eqn:Hr.
  apply IH. destruct (react_step s wb w) as [H | H]; rewrite Hr in H; cbn [fst] in H.
  - now subst.
  - now apply reachable_step with (wb := wb).
Qed.

Lemma update_nth_error (A : Type) (n : nat) (x y : A) (xs : list A) :
  nth_error xs n = Some y -> nth_error (update n x xs) n = Some x.
Proof.
  revert n. induction xs as [| z xs IH]; intros [| n]; simpl; try discriminate.
  - reflexivity.
  - apply IH.
Qed.

(** The two ways of running agree: resuming a suspended method that starts
    no other, once for each call of its run against the host, logs the trace
    of that run and leaves the host as the run does. *)
Lemma play_run (m : nat) (p : prog unit) (a n : nat) (wb : Workbench) (w : W) :
  length (trace (run h p w)) = m ->
  starts_nothing p ->
  nth_error (tasks wb) n = Some (a, p) ->
  let st :=
    play toLowerCase areSameExtensions localize h (repeat (Advance n) m) (wb, w) in
  log (fst st) = log wb ++ map (pair a) (trace (run h p w)) /\
  snd st = final (run h p w) /\
  nth_error (tasks (fst st)) n = Some (a, left_of (outcome (run h p w))).
Proof.
  revert p wb w. induction m as [| m IH]; intros p wb w Hlen Hp Hnth; cbn zeta.
  - destruct p as [[] | e | | X c k | child k]; simpl in *;
      try (rewrite app_nil_r; now repeat split); try contradiction.
    destruct (respond h c w). discriminate.
  - destruct p as [[] | e | | X c k | child k]; simpl in Hlen, Hp;
      try discriminate; try contradiction.
    cbn [repeat play fold_left react]. rewrite Hnth. simpl run.
    destruct (respond h c w) as [r w1] eqn:Hr. cbn [trace length] in Hlen.
    injection Hlen as Hlen.
    assert (Hnth' : nth_error (tasks (resume n a (k r) [] (Ev c r) wb)) n = Some (a, k r)).
    { cbn [resume tasks map]. rewrite app_nil_r. now apply update_nth_error with (y := (a, Vis c k)). }
    destruct (IH (k r) (resume n a (k r) [] (Ev c r) wb) w1 Hlen (Hp r) Hnth')
      as [Hlog [Hfinal Htask]].
    cbn [outcome trace final map]. unfold play in *. rewrite Hlog, Hfinal, Htask.
    cbn [resume log]. rewrite <- app_assoc. now repeat split.
Qed.

End Scheduling.

(** ** On the sample workbench *)

(** The example of the specification: [A] depends on [B], nothing is
    installed, the gallery has [B]: one install, one notification. *)
Example one_missing_dependency :
  let r :=
    run Sample.host Sample.install
      (Sample.world [Sample.extension "A" (Some ["B"])] [] [Sample.package "B" "1.0.0"]
         false [(0, Resolves)]) in
  outcome r = Returned tt /\
  length (filter is_install (trace r)) = 1 /\
  length (filter is_notification (trace r)) = 1.
Proof. vm_compute. repeat split. Qed.

(** With the setting off the automatic check stops after reading it. *)
Example check_with_setting_off :
  trace (run Sample.host Sample.check Sample.manual) =
  [Ev GetExtensions (Fulfilled Sample.runningExtensions);
   Ev QueryLocal (Fulfilled Sample.localExtensions);
   Ev (GetValue "extensions.autoInstallMissingDependencies") false].
Proof. reflexivity. Qed.

Lemma getAllMissingDependencies_set_difference_witness :
  respond Sample.host GetExtensions Sample.succeeding
  = (Fulfilled Sample.runningExtensions, Sample.succeeding) /\
  exists missing,
    outcome (run Sample.host (getAllMissingDependencies Sample.toLowerCase) Sample.succeeding)
    = Returned missing /\
    NoDup missing /\
    forall dep,
      In dep missing <->
      (exists extension deps,
          In extension Sample.runningExtensions /\
          IExtensionDescription.extensionDependencies extension = Some deps /\
          In dep deps) /\
      (forall r,
          In r Sample.runningExtensions ->
          Sample.toLowerCase dep <>
          Sample.toLowerCase
            (ExtensionIdentifier.value (IExtensionDescription.identifier r))).
Proof.
  split; [reflexivity |].
  apply (getAllMissingDependencies_set_difference Sample.toLowerCase Sample.host
           Sample.succeeding (w' := Sample.succeeding) (R := Sample.runningExtensions)).
  reflexivity.
Defined.

(** Against C5 as stated: [pub.B] and [pub.b] differ in letter case only, and
    both are returned. *)
Lemma getAllMissingDependencies_returns_both_spellings :
  outcome (run Sample.host (getAllMissingDependencies Sample.toLowerCase) Sample.succeeding)
  = Returned ["pub.B"; "pub.b"; "x.y"] /\
  Sample.toLowerCase "pub.B" = Sample.toLowerCase "pub.b" /\
  occurrences_ignoring_case Sample.toLowerCase "pub.B" ["pub.B"; "pub.b"; "x.y"] = 2.
Proof. repeat split. Qed.

Lemma getAllMissingDependencies_once_per_spelling_witness :
  respond Sample.host GetExtensions Sample.succeeding
  = (Fulfilled Sample.runningExtensions, Sample.succeeding) /\
  exists missing,
    outcome (run Sample.host (getAllMissingDependencies Sample.toLowerCase) Sample.succeeding)
    = Returned missing /\
    forall extension deps dep,
      In extension Sample.runningExtensions ->
      IExtensionDescription.extensionDependencies extension = Some deps ->
      In dep deps ->
      (forall r,
          In r Sample.runningExtensions ->
          Sample.toLowerCase dep <>
          Sample.toLowerCase
            (ExtensionIdentifier.value (IExtensionDescription.identifier r))) ->
      count_occ string_dec missing dep = 1.
Proof.
  split; [reflexivity |].
  apply (getAllMissingDependencies_once_per_spelling Sample.toLowerCase Sample.host
           Sample.succeeding (w' := Sample.succeeding) (R := Sample.runningExtensions)).
  reflexivity.
Defined.

Lemma getAllMissingDependencies_undefined_dependencies_witness :
  respond Sample.host GetExtensions Sample.succeeding
  = (Fulfilled Sample.runningExtensions, Sample.succeeding) /\
  exists missing,
    outcome (run Sample.host (getAllMissingDependencies Sample.toLowerCase) Sample.succeeding)
    = Returned missing /\
    (forall dep,
        In dep missing ->
        exists extension deps,
          In extension Sample.runningExtensions /\
          IExtensionDescription.extensionDependencies extension = Some deps /\
          In dep deps) /\
    (forall R1 e R2 (h0 : Host Sample.World) (w0 w0' : Sample.World),
        Sample.runningExtensions = R1 ++ e :: R2 ->
        IExtensionDescription.extensionDependencies e = None ->
        respond h0 GetExtensions w0 =
          (Fulfilled
             (R1 ++ IExtensionDescription.Build (IExtensionDescription.identifier e) (Some [])
                 :: R2), w0') ->
        outcome (run h0 (getAllMissingDependencies Sample.toLowerCase) w0) = Returned missing).
Proof.
  split; [reflexivity |].
  apply (getAllMissingDependencies_undefined_dependencies Sample.toLowerCase Sample.host
           Sample.succeeding (w' := Sample.succeeding) (R := Sample.runningExtensions)).
  reflexivity.
Defined.

Lemma getUninstalledMissingDependencies_filters_installed_witness :
  (outcome (run Sample.host (getAllMissingDependencies Sample.toLowerCase) Sample.succeeding)
   = Returned ["pub.B"; "pub.b"; "x.y"] /\
   respond Sample.host QueryLocal
     (final (run Sample.host (getAllMissingDependencies Sample.toLowerCase) Sample.succeeding))
   = (Fulfilled Sample.localExtensions, Sample.succeeding)) /\
  exists uninstalled,
    outcome (run Sample.host Sample.getUninstalled Sample.succeeding) = Returned uninstalled /\
    (forall id, In id uninstalled -> In id ["pub.B"; "pub.b"; "x.y"]) /\
    (forall id,
        In id ["pub.B"; "pub.b"; "x.y"] ->
        (~ In id uninstalled <->
         exists l,
           In l Sample.localExtensions /\
           Sample.areSameExtensions (IExtension.identifier l)
             (IExtensionIdentifier.Build id None)
           = true)).
Proof.
  split; [split; reflexivity |].
  apply (getUninstalledMissingDependencies_filters_installed Sample.toLowerCase
           Sample.areSameExtensions Sample.host Sample.succeeding
           (w2 := Sample.succeeding) (all := ["pub.B"; "pub.b"; "x.y"])
           (locals := Sample.localExtensions));
    reflexivity.
Defined.

Lemma checkAndInstallMissingDependencies_starts_install_witness :
  In (Started Sample.install) (trace (run Sample.host Sample.check Sample.succeeding)) /\
  ~ In (Started Sample.install) (trace (run Sample.host Sample.check Sample.manual)).
Proof.
  destruct (checkAndInstallMissingDependencies_starts_install Sample.toLowerCase
              Sample.areSameExtensions Sample.localize Sample.host Sample.succeeding)
    as [Hon _].
  destruct (checkAndInstallMissingDependencies_starts_install Sample.toLowerCase
              Sample.areSameExtensions Sample.localize Sample.host Sample.manual)
    as [Hoff _].
  split.
  - apply Hon. exists ["pub.B"; "pub.b"]. repeat split. discriminate.
  - intros Hin. apply Hoff in Hin. destruct Hin as [missing [_ [_ Hflag]]]. discriminate.
Defined.

Lemma installMissingDependencies_nothing_missing_witness :
  outcome (run Sample.host Sample.getUninstalled Sample.complete) = Returned [] /\
  (outcome (run Sample.host Sample.install Sample.complete) = Returned tt /\
   trace (run Sample.host Sample.install Sample.complete) =
     trace (run Sample.host Sample.getUninstalled Sample.complete) ++
     [Ev (NotifyInfo
            (Sample.localize "no missing deps" "There are no missing dependencies to install."))
        tt] /\
   length (filter is_notification (trace (run Sample.host Sample.install Sample.complete))) = 1 /\
   filter is_gallery_query (trace (run Sample.host Sample.install Sample.complete)) = [] /\
   filter is_install (trace (run Sample.host Sample.install Sample.complete)) = []).
Proof.
  split; [reflexivity |].
  apply (installMissingDependencies_nothing_missing Sample.toLowerCase
           Sample.areSameExtensions Sample.localize Sample.host Sample.complete).
  reflexivity.
Defined.

Lemma installMissingDependencies_nothing_found_witness :
  (outcome (run Sample.host Sample.getUninstalled Sample.unknown)
   = Returned ["pub.B"; "pub.b"] /\
   ["pub.B"; "pub.b"] <> [] /\
   respond Sample.host Sample.query
     (final (run Sample.host Sample.getUninstalled Sample.unknown))
   = (Fulfilled (IPager.Build [] 0 2), Sample.unknown) /\
   IPager.firstPage (IPager.Build [] 0 2) = []) /\
  (outcome (run Sample.host Sample.install Sample.unknown) = Returned tt /\
   trace (run Sample.host Sample.install Sample.unknown) =
     trace (run Sample.host Sample.getUninstalled Sample.unknown) ++
     [Ev Sample.query (Fulfilled (IPager.Build [] 0 2))] /\
   filter is_notification (trace (run Sample.host Sample.install Sample.unknown)) = [] /\
   filter is_install (trace (run Sample.host Sample.install Sample.unknown)) = []).
Proof.
  assert (Hne : ["pub.B"; "pub.b"] <> []) by discriminate.
  split; [repeat split; exact Hne |].
  exact (installMissingDependencies_nothing_found Sample.toLowerCase
           Sample.areSameExtensions Sample.localize Sample.host Sample.unknown
           (w1 := Sample.unknown) (missing := ["pub.B"; "pub.b"])
           (pager := IPager.Build [] 0 2) eq_refl Hne eq_refl eq_refl).
Defined.

Lemma installMissingDependencies_installs_found_witness :
  (outcome (run Sample.host Sample.getUninstalled Sample.succeeding)
   = Returned ["pub.B"; "pub.b"] /\
   ["pub.B"; "pub.b"] <> [] /\
   respond Sample.host Sample.query
     (final (run Sample.host Sample.getUninstalled Sample.succeeding))
   = (Fulfilled Sample.found, Sample.succeeding) /\
   IPager.firstPage Sample.found <> [] /\
   installations Sample.host (IPager.firstPage Sample.found) Sample.succeeding
   = ([0], Sample.issuing Sample.succeeding) /\
   respond Sample.host (AwaitAll [0]) (Sample.issuing Sample.succeeding)
   = ([(0, Resolves)], Sample.issuing Sample.succeeding)) /\
  (length [0] = length (IPager.firstPage Sample.found) /\
   trace (run Sample.host Sample.install Sample.succeeding) =
     trace (run Sample.host Sample.getUninstalled Sample.succeeding) ++
     Ev Sample.query (Fulfilled Sample.found)
     :: installCalls (IPager.firstPage Sample.found) [0] ++
     Ev (AwaitAll [0]) [(0, Resolves)]
     :: (if forallb (resolves [(0, Resolves)]) [0]
         then [Ev (Notify (finishedNotification Sample.localize)) tt]
         else []) /\
   filter is_install (trace (run Sample.host Sample.install Sample.succeeding))
   = installCalls (IPager.firstPage Sample.found) [0] /\
   ((forall p, In p [0] -> fate [(0, Resolves)] p = Some Resolves) ->
    filter is_notification (trace (run Sample.host Sample.install Sample.succeeding))
    = [Ev (Notify (finishedNotification Sample.localize)) tt] /\
    outcome (run Sample.host Sample.install Sample.succeeding) = Returned tt) /\
   (filter is_notification (trace (run Sample.host Sample.install Sample.succeeding)) <> [] ->
    forall p, In p [0] -> fate [(0, Resolves)] p = Some Resolves) /\
   map (fun a => invoke (Action.actionCallback a))
     (INotification.primary (finishedNotification Sample.localize))
   = [call ReloadWindow]).
Proof.
  assert (Hne : ["pub.B"; "pub.b"] <> []) by discriminate.
  assert (Hpage : IPager.firstPage Sample.found <> []) by discriminate.
  split; [repeat split; assumption |].
  exact (installMissingDependencies_installs_found Sample.toLowerCase
           Sample.areSameExtensions Sample.localize Sample.host Sample.succeeding
           (w1 := Sample.succeeding) (w2 := Sample.issuing Sample.succeeding)
           (w3 := Sample.issuing Sample.succeeding) (missing := ["pub.B"; "pub.b"])
           (pager := Sample.found) (promises := [0]) (tl := [(0, Resolves)])
           eq_refl Hne eq_refl Hpage eq_refl eq_refl).
Defined.

Lemma installMissingDependencies_install_rejects_witness :
  (outcome (run Sample.host Sample.getUninstalled Sample.failing)
   = Returned ["pub.B"; "pub.b"] /\
   ["pub.B"; "pub.b"] <> [] /\
   respond Sample.host Sample.query
     (final (run Sample.host Sample.getUninstalled Sample.failing))
   = (Fulfilled Sample.found, Sample.failing) /\
   IPager.firstPage Sample.found <> [] /\
   installations Sample.host (IPager.firstPage Sample.found) Sample.failing
   = ([0], Sample.issuing Sample.failing) /\
   respond Sample.host (AwaitAll [0]) (Sample.issuing Sample.failing)
   = ([(0, Rejects (ServiceFailure "install failed"))], Sample.issuing Sample.failing) /\
   (exists p e,
       In p [0] /\ fate [(0, Rejects (ServiceFailure "install failed"))] p = Some (Rejects e))) /\
  ((exists p e,
       In p [0] /\
       fate [(0, Rejects (ServiceFailure "install failed"))] p = Some (Rejects e) /\
       outcome (run Sample.host Sample.install Sample.failing) = Threw e) /\
   trace (run Sample.host Sample.install Sample.failing) =
     trace (run Sample.host Sample.getUninstalled Sample.failing) ++
     Ev Sample.query (Fulfilled Sample.found)
     :: installCalls (IPager.firstPage Sample.found) [0] ++
     [Ev (AwaitAll [0]) [(0, Rejects (ServiceFailure "install failed"))]] /\
   final (run Sample.host Sample.install Sample.failing) = Sample.issuing Sample.failing /\
   filter is_install (trace (run Sample.host Sample.install Sample.failing))
   = installCalls (IPager.firstPage Sample.found) [0] /\
   length (installCalls (IPager.firstPage Sample.found) [0])
   = length (IPager.firstPage Sample.found) /\
   filter is_notification (trace (run Sample.host Sample.install Sample.failing)) = []).
Proof.
  assert (Hne : ["pub.B"; "pub.b"] <> []) by discriminate.
  assert (Hpage : IPager.firstPage Sample.found <> []) by discriminate.
  assert (Hrejects :
    exists p e,
      In p [0] /\ fate [(0, Rejects (ServiceFailure "install failed"))] p = Some (Rejects e)).
  { exists 0, (ServiceFailure "install failed"). split; [now left | reflexivity]. }
  split; [repeat split; assumption |].
  exact (installMissingDependencies_install_rejects Sample.toLowerCase
           Sample.areSameExtensions Sample.localize Sample.host Sample.failing
           (w1 := Sample.failing) (w2 := Sample.issuing Sample.failing)
           (w3 := Sample.issuing Sample.failing) (missing := ["pub.B"; "pub.b"])
           (pager := Sample.found) (promises := [0])
           (tl := [(0, Rejects (ServiceFailure "install failed"))])
           eq_refl Hne eq_refl Hpage eq_refl eq_refl Hrejects).
Defined.

Lemma notifications_have_a_cause_witness :
  (reachable Sample.toLowerCase Sample.areSameExtensions Sample.localize
     Sample.afterFirstCheck /\
   log Sample.afterFirstCheck =
     firstn 10 (log Sample.afterFirstCheck) ++
     (0, Ev (Notify (finishedNotification Sample.localize)) tt)
     :: skipn 11 (log Sample.afterFirstCheck) /\
   is_notification (Ev (Notify (finishedNotification Sample.localize)) tt) = true) /\
  (nth_error (origins Sample.afterFirstCheck) 0
   = Some (CommandInvocation "workbench.extensions.installMissingDepenencies") \/
   (nth_error (origins Sample.afterFirstCheck) 0 = Some AutomaticCheck /\
    In (0, Ev (GetValue "extensions.autoInstallMissingDependencies") true)
      (firstn 10 (log Sample.afterFirstCheck)))).
Proof.
  assert (Hreach : reachable Sample.toLowerCase Sample.areSameExtensions Sample.localize
                     Sample.afterFirstCheck)
    by (apply play_reachable; constructor).
  assert (Hlog : log Sample.afterFirstCheck =
                 firstn 10 (log Sample.afterFirstCheck) ++
                 (0, Ev (Notify (finishedNotification Sample.localize)) tt)
                 :: skipn 11 (log Sample.afterFirstCheck))
    by (vm_compute; reflexivity).
  split; [repeat split; assumption |].
  exact (notifications_have_a_cause Hreach
           (firstn 10 (log Sample.afterFirstCheck)) 0
           (Ev (Notify (finishedNotification Sample.localize)) tt)
           (skipn 11 (log Sample.afterFirstCheck)) Hlog eq_refl).
Defined.

(** * Further properties *)

(** ** Programs and the calls they make *)

Lemma calls_only_pbind (allowed : Event -> bool) (A B : Type) (m : prog A) (f : A -> prog B) :
  calls_only allowed m -> (forall a, calls_only allowed (f a)) ->
  calls_only allowed (pbind m f).
Proof.
  intros Hm Hf. induction m as [A a | A e | A | A X c k IH | A child _ k IH]; simpl in *.
  - apply Hf.
  - exact I.
  - exact I.
  - intros r. destruct (Hm r) as [Hc Hk]. split; [assumption | now apply IH].
  - destruct Hm as [Hs [Hchild Hk]]. repeat split; [assumption .. | now apply IH].
Qed.

Lemma calls_only_run (allowed : Event -> bool) (W : Type) (h : Host W) (A : Type)
  (p : prog A) (w : W) (ev : Event) :
  calls_only allowed p -> In ev (trace (run h p w)) -> allowed ev = true.
Proof.
  revert w. induction p as [A a | A e | A | A X c k IH | A child IHchild k IH];
    intros w; simpl.
  - intros _ [].
  - intros _ [].
  - intros _ [].
  - intros Hk. destruct (respond h c w) as [r w1]. simpl.
    destruct (Hk r) as [Hc Hr]. intros [<- | Hin]; [assumption | exact (IH r w1 Hr Hin)].
  - intros [Hs [Hchild Hk]] [<- | Hin]; [assumption |].
    apply in_app_or in Hin. destruct Hin as [Hin | Hin].
    + exact (IHchild w Hchild Hin).
    + exact (IH _ Hk Hin).
Qed.

Section Calls.

Variable toLowerCase : string -> string.
Variable areSameExtensions : IExtensionIdentifier.t -> IExtensionIdentifier.t -> bool.
Variable localize : string -> string -> string.

(** The calls of the three asynchronous methods, whatever the answers. *)
Lemma getUninstalledMissingDependencies_calls_only (allowed : Event -> bool) :
  (forall r, allowed (Ev GetExtensions r) = true) ->
  (forall r, allowed (Ev QueryLocal r) = true) ->
  calls_only allowed (getUninstalledMissingDependencies toLowerCase areSameExtensions).
Proof.
  intros Hget Hlocal.
  unfold getUninstalledMissingDependencies, getAllMissingDependencies.
  cbn [bind ret Monad_prog].
  repeat (apply calls_only_pbind; [| intros ?]).
  - intros r. split; [apply Hget | destruct r; exact I].
  - rewrite for_of_missing. exact I.
  - exact I.
  - intros r. split; [apply Hlocal | destruct r; exact I].
  - exact I.
Qed.

Lemma installMissingDependencies_calls_only (allowed : Event -> bool) :
  (forall r, allowed (Ev GetExtensions r) = true) ->
  (forall r, allowed (Ev QueryLocal r) = true) ->
  (forall options r, allowed (Ev (QueryGallery options) r) = true) ->
  (forall extension r, allowed (Ev (Install extension) r) = true) ->
  (forall promises r, allowed (Ev (AwaitAll promises) r) = true) ->
  (forall notification r, allowed (Ev (Notify notification) r) = true) ->
  (forall message r, allowed (Ev (NotifyInfo message) r) = true) ->
  calls_only allowed (installMissingDependencies toLowerCase areSameExtensions localize).
Proof.
  intros Hget Hlocal Hgallery Hinstall Hawait Hnotify Hinfo.
  unfold installMissingDependencies. cbn [bind ret Monad_prog].
  apply calls_only_pbind;
    [now apply getUninstalledMissingDependencies_calls_only |].
  intros missing. destruct (truthy_length missing);
    [| intros r; split; [apply Hinfo | exact I]].
  apply calls_only_pbind; [intros r; split; [apply Hgallery | destruct r; exact I] |].
  intros pager. destruct (truthy_length (IPager.firstPage pager)); [| exact I].
  apply calls_only_pbind.
  - induction (IPager.firstPage pager) as [| e es IH]; [exact I |].
    cbn [mapM bind ret Monad_prog]. intros p. split; [apply Hinstall |]. cbn [pbind].
    apply calls_only_pbind; [exact IH | intros ps; exact I].
  - intros promises. apply calls_only_pbind.
    + intros tl. split; [apply Hawait | destruct (promiseAll promises tl); exact I].
    + intros _ r. split; [apply Hnotify | exact I].
Qed.

Lemma checkAndInstallMissingDependencies_calls_only (allowed : Event -> bool) :
  (forall r, allowed (Ev GetExtensions r) = true) ->
  (forall r, allowed (Ev QueryLocal r) = true) ->
  (forall options r, allowed (Ev (QueryGallery options) r) = true) ->
  (forall extension r, allowed (Ev (Install extension) r) = true) ->
  (forall promises r, allowed (Ev (AwaitAll promises) r) = true) ->
  (forall notification r, allowed (Ev (Notify notification) r) = true) ->
  (forall message r, allowed (Ev (NotifyInfo message) r) = true) ->
  (forall key r, allowed (Ev (GetValue key) r) = true) ->
  (forall child, allowed (Started child) = true) ->
  calls_only allowed (checkAndInstallMissingDependencies toLowerCase areSameExtensions localize).
Proof.
  intros Hget Hlocal Hgallery Hinstall Hawait Hnotify Hinfo Hvalue Hstart.
  unfold checkAndInstallMissingDependencies. cbn [bind ret Monad_prog].
  apply calls_only_pbind;
    [now apply getUninstalledMissingDependencies_calls_only |].
  intros missing. destruct (Nat.ltb 0 (length missing)); [| exact I].
  cbn [call pbind]. intros r. split; [apply Hvalue |].
  destruct r; [| exact I].
  split; [apply Hstart | split; [| exact I]].
  now apply installMissingDependencies_calls_only.
Qed.

End Calls.

(** ** The methods, continued *)

Lemma promiseAll_pending (promises : list PromiseId) (tl : Timeline) :
  (forall p e, In p promises -> fate tl p <> Some (Rejects e)) ->
  (exists p, In p promises /\ fate tl p = None) ->
  promiseAll promises tl = NeverSettles.
Proof.
  intros Hnone [p [Hp Hfate]]. unfold promiseAll.
  destruct (first_rejection promises [] tl) as [e |] eqn:Hfirst.
  - apply first_rejection_sound in Hfirst. destruct Hfirst as [q [Hq [_ Hrej]]].
    now apply Hnone in Hrej.
  - destruct (forallb (resolves tl) promises) eqn:Hall; [| reflexivity].
    rewrite forallb_forall in Hall. specialize (Hall p Hp).
    apply resolves_fate in Hall. congruence.
Qed.

Section More.

Variable toLowerCase : string -> string.
Variable areSameExtensions : IExtensionIdentifier.t -> IExtensionIdentifier.t -> bool.
Variable localize : string -> string -> string.
Variable W : Type.
Variable h : Host W.

Ltac sequence := cbn [bind ret Monad_prog]; rewrite run_pbind.

Lemma listing_filters (w : W) :
  let t := trace (run h (getUninstalledMissingDependencies toLowerCase areSameExtensions) w) in
  filter is_notification t = [] /\ filter is_gallery_query t = [] /\
  filter is_install t = [] /\ filter is_start t = [].
Proof.
  cbn zeta. pose proof (getUninstalledMissingDependencies_calls toLowerCase
                          areSameExtensions h w) as Hcalls.
  repeat split; apply filter_none; intros ev Hev; now apply Hcalls.
Qed.

(** X1.  [getUninstalledMissingDependencies] throws exactly when
    [getExtensions] rejects, or [getExtensions] is fulfilled and [queryLocal]
    rejects, and it throws the reason of that rejection; when
    [getExtensions] rejects, [queryLocal] is not called. *)
Theorem getUninstalledMissingDependencies_throws (w : W) (e : Failure) :
  let listing := run h (getUninstalledMissingDependencies toLowerCase areSameExtensions) w in
  (outcome listing = Threw e <->
   fst (respond h GetExtensions w) = Rejected e \/
   (exists R,
       fst (respond h GetExtensions w) = Fulfilled R /\
       fst (respond h QueryLocal (snd (respond h GetExtensions w))) = Rejected e)) /\
  (fst (respond h GetExtensions w) = Rejected e ->
   trace listing = [Ev GetExtensions (Rejected e)]).
Proof.
  cbn zeta. rewrite run_getUninstalledMissingDependencies, run_getAllMissingDependencies.
  cbn [outcome trace final].
  destruct (respond h GetExtensions w) as [[R | e0 |] w1]; cbn [fst snd outcome trace].
  - destruct (respond h QueryLocal w1) as [[L | e1 |] w2]; cbn [fst snd].
    + split; [split |]; try discriminate.
      intros [H | [R' [_ H]]]; discriminate.
    + split; [split |]; try discriminate.
      * intros [= ->]. right. now exists R.
      * intros [H | [R' [_ [= ->]]]]; [discriminate | reflexivity].
    + split; [split |]; try discriminate.
      intros [H | [R' [_ H]]]; discriminate.
  - split; [split |].
    + intros [= ->]. now left.
    + intros [[= ->] | [R [H _]]]; [reflexivity | discriminate].
    + intros [= ->]. reflexivity.
  - split; [split |]; try discriminate.
    intros [H | [R [H _]]]; discriminate.
Qed.

(** X2.  When [getExtensions] answers [R] and [queryLocal] answers [L],
    [getUninstalledMissingDependencies] makes these two calls and returns,
    without repetition, exactly the identifiers that some extension of [R]
    declares as a dependency, that are the identifier of no extension of [R]
    up to letter case, and that [areSameExtensions] matches with no extension
    of [L]. *)
Theorem getUninstalledMissingDependencies_exact
  (w w1 w2 : W) (R : list IExtensionDescription.t) (L : list IExtension.t) :
  respond h GetExtensions w = (Fulfilled R, w1) ->
  respond h QueryLocal w1 = (Fulfilled L, w2) ->
  exists uninstalled,
    run h (getUninstalledMissingDependencies toLowerCase areSameExtensions) w =
    {| outcome := Returned uninstalled;
       trace := [Ev GetExtensions (Fulfilled R); Ev QueryLocal (Fulfilled L)];
       final := w2 |} /\
    NoDup uninstalled /\
    forall id,
      In id uninstalled <->
      (exists extension deps,
          In extension R /\
          IExtensionDescription.extensionDependencies extension = Some deps /\
          In id deps) /\
      (forall r,
          In r R ->
          toLowerCase id <>
          toLowerCase (ExtensionIdentifier.value (IExtensionDescription.identifier r))) /\
      (forall l,
          In l L ->
          areSameExtensions (IExtension.identifier l) (IExtensionIdentifier.Build id None)
          = false).
Proof.
  intros Hget Hlocal.
  exists (filter (notInstalled areSameExtensions L) (missingDependenciesOf toLowerCase R)).
  split; [| split].
  - rewrite run_getUninstalledMissingDependencies, run_getAllMissingDependencies.
    cbn [outcome trace final]. rewrite Hget. cbn [fst snd outcome trace final].
    rewrite Hlocal. reflexivity.
  - apply NoDup_filter, missingDependenciesOf_NoDup.
  - intros id. rewrite filter_In, missingDependenciesOf_In. split.
    + intros [[Hdecl Hrun] Hnot]. repeat split; try assumption.
      intros l Hl.
      destruct (areSameExtensions (IExtension.identifier l)
                  (IExtensionIdentifier.Build id None)) eqn:Hsame; [| reflexivity].
      assert (Hfalse : notInstalled areSameExtensions L id = false)
        by (apply notInstalled_false; now exists l).
      congruence.
    + intros [Hdecl [Hrun Hnot]]. repeat split; try assumption.
      destruct (notInstalled areSameExtensions L id) eqn:Hn; [reflexivity |].
      apply notInstalled_false in Hn. destruct Hn as [l [Hl Hsame]].
      rewrite (Hnot l Hl) in Hsame. discriminate.
Qed.

(** X3.  When the list of uninstalled missing dependencies is not empty and
    the gallery query rejects, [installMissingDependencies] throws the
    reason of that rejection right after the query, which asked for the
    listed names with a page as long as the list: nothing is installed and
    no notification is shown. *)
Theorem installMissingDependencies_gallery_rejects
  (w w1 : W) (missing : list string) (e : Failure) :
  outcome (run h (getUninstalledMissingDependencies toLowerCase areSameExtensions) w)
  = Returned missing ->
  missing <> [] ->
  respond h (QueryGallery (IQueryOptions.Build missing (length missing)))
    (final (run h (getUninstalledMissingDependencies toLowerCase areSameExtensions) w))
  = (Rejected e, w1) ->
  let listing := run h (getUninstalledMissingDependencies toLowerCase areSameExtensions) w in
  let r := run h (installMissingDependencies toLowerCase areSameExtensions localize) w in
  r = {| outcome := Threw e;
         trace :=
           trace listing ++
           [Ev (QueryGallery (IQueryOptions.Build missing (length missing))) (Rejected e)];
         final := w1 |} /\
  filter is_install (trace r) = [] /\
  filter is_notification (trace r) = [].
Proof.
  intros Hmissing Hnonempty Hgallery. cbn zeta.
  destruct (listing_filters w) as [Hn [_ [Hi _]]]. cbn zeta in Hn, Hi.
  unfold installMissingDependencies. sequence.
  destruct (run h (getUninstalledMissingDependencies toLowerCase areSameExtensions) w)
    as [o t w0].
  cbn [outcome trace final] in *. subst o.
  rewrite (truthy_length_nonempty Hnonempty). cbn zeta.
  rewrite run_pbind, run_await, Hgallery. cbn [outcome trace final fst snd].
  rewrite !filter_app, Hn, Hi. now repeat split.
Qed.

(** X4.  When computing the list throws, [installMissingDependencies] and
    [checkAndInstallMissingDependencies] throw the same reason after the
    calls of the listing and make no other call: no notification tells of
    the failure. *)
Theorem listing_failure_propagates (w : W) (e : Failure) :
  outcome (run h (getUninstalledMissingDependencies toLowerCase areSameExtensions) w)
  = Threw e ->
  let listing := run h (getUninstalledMissingDependencies toLowerCase areSameExtensions) w in
  run h (installMissingDependencies toLowerCase areSameExtensions localize) w =
  {| outcome := Threw e; trace := trace listing; final := final listing |} /\
  run h (checkAndInstallMissingDependencies toLowerCase areSameExtensions localize) w =
  {| outcome := Threw e; trace := trace listing; final := final listing |} /\
  filter is_notification (trace listing) = [].
Proof.
  intros Hthrew. cbn zeta. destruct (listing_filters w) as [Hn _]. cbn zeta in Hn.
  unfold installMissingDependencies, checkAndInstallMissingDependencies.
  cbn [bind ret Monad_prog]. rewrite !run_pbind, Hthrew. now repeat split.
Qed.

(** In every run, [installMissingDependencies] shows one notification at
    most and queries the gallery once at most. *)
Lemma installMissingDependencies_counts (w : W) :
  let r := run h (installMissingDependencies toLowerCase areSameExtensions localize) w in
  length (filter is_notification (trace r)) <= 1 /\
  length (filter is_gallery_query (trace r)) <= 1.
Proof.
  cbn zeta. destruct (listing_filters w) as [Hn [Hg _]]. cbn zeta in Hn, Hg.
  unfold installMissingDependencies. sequence.
  destruct (run h (getUninstalledMissingDependencies toLowerCase areSameExtensions) w)
    as [[missing | e |] t w0];
    cbn [outcome trace final] in *; try (rewrite Hn, Hg; simpl; lia).
  destruct (truthy_length missing); cbn zeta.
  - rewrite run_pbind, run_await. cbn [outcome trace final].
    destruct (respond h (QueryGallery (IQueryOptions.Build missing (length missing))) w0)
      as [[pager | e |] w1]; cbn [fst snd outcome trace final];
      try (rewrite !filter_app, Hn, Hg; simpl; lia).
    destruct (truthy_length (IPager.firstPage pager)).
    + rewrite run_pbind, run_installs. cbn [outcome trace final]. cbn zeta.
      rewrite run_pbind, run_awaitAll. cbn [outcome trace final].
      destruct (installCalls_installs (IPager.firstPage pager)
                  (fst (installations h (IPager.firstPage pager) w1))) as [_ [Hin Hig]].
      destruct (promiseAll _ _) as [[] | e |]; cbn [outcome trace final];
        try rewrite run_call; cbn [outcome trace final];
        repeat (rewrite ?filter_app; cbn [filter is_notification is_gallery_query app]);
        rewrite Hn, Hg, Hin, Hig; simpl; lia.
    + cbn [run outcome trace final]. rewrite !filter_app, Hn, Hg. simpl. lia.
  - rewrite run_call. cbn [outcome trace final]. rewrite !filter_app, Hn, Hg. simpl. lia.
Qed.

(** X5.  In every run, [installMissingDependencies] and
    [checkAndInstallMissingDependencies] (with the installation it may
    start) show one notification at most and query the gallery once at
    most. *)
Theorem one_notification_at_most (w : W) :
  let install := run h (installMissingDependencies toLowerCase areSameExtensions localize) w in
  let check :=
    run h (checkAndInstallMissingDependencies toLowerCase areSameExtensions localize) w in
  length (filter is_notification (trace install)) <= 1 /\
  length (filter is_gallery_query (trace install)) <= 1 /\
  length (filter is_notification (trace check)) <= 1 /\
  length (filter is_gallery_query (trace check)) <= 1.
Proof.
  cbn zeta. destruct (installMissingDependencies_counts w) as [Hin Hig].
  split; [assumption | split; [assumption |]].
  destruct (listing_filters w) as [Hn [Hg _]]. cbn zeta in Hn, Hg.
  unfold checkAndInstallMissingDependencies. sequence.
  destruct (run h (getUninstalledMissingDependencies toLowerCase areSameExtensions) w)
    as [[missing | e |] t w0];
    cbn [outcome trace final] in *; try (rewrite Hn, Hg; simpl; lia).
  destruct (Nat.ltb 0 (length missing)); cbn zeta.
  - rewrite run_pbind, run_call. cbn [outcome trace final].
    destruct (respond h (GetValue autoInstallMissingDependencies) w0) as [[|] w1];
      cbn [fst snd].
    + rewrite run_start. cbn [outcome trace final].
      destruct (installMissingDependencies_counts w1) as [Hn1 Hg1]. cbn zeta in Hn1, Hg1.
      rewrite !filter_app. cbn [filter is_notification is_gallery_query app].
      rewrite Hn, Hg. cbn [app length]. split; assumption.
    + cbn [run outcome trace final]. rewrite !filter_app, Hn, Hg. simpl. lia.
  - cbn [run outcome trace final]. rewrite !filter_app, Hn, Hg. simpl. lia.
Qed.

(** X6.  When the installs were issued, none of them rejects and one of them
    never settles, [installMissingDependencies] stays suspended at the await
    of all of them: it shows no notification, although the other installs
    may have succeeded. *)
Theorem installMissingDependencies_install_pending
  (w w1 w2 w3 : W) (missing : list string) (pager : IPager.t)
  (promises : list PromiseId) (tl : Timeline) :
  outcome (run h (getUninstalledMissingDependencies toLowerCase areSameExtensions) w)
  = Returned missing ->
  missing <> [] ->
  respond h (QueryGallery (IQueryOptions.Build missing (length missing)))
    (final (run h (getUninstalledMissingDependencies toLowerCase areSameExtensions) w))
  = (Fulfilled pager, w1) ->
  IPager.firstPage pager <> [] ->
  installations h (IPager.firstPage pager) w1 = (promises, w2) ->
  respond h (AwaitAll promises) w2 = (tl, w3) ->
  (forall p e, In p promises -> fate tl p <> Some (Rejects e)) ->
  (exists p, In p promises /\ fate tl p = None) ->
  let listing := run h (getUninstalledMissingDependencies toLowerCase areSameExtensions) w in
  let r := run h (installMissingDependencies toLowerCase areSameExtensions localize) w in
  outcome r = Suspended /\
  trace r =
    trace listing ++
    Ev (QueryGallery (IQueryOptions.Build missing (length missing))) (Fulfilled pager)
    :: installCalls (IPager.firstPage pager) promises ++
    [Ev (AwaitAll promises) tl] /\
  filter is_install (trace r) = installCalls (IPager.firstPage pager) promises /\
  filter is_notification (trace r) = [].
Proof.
  intros Hmissing Hnonempty Hgallery Hpage Hinstalls Hawait Hnone Hpending. cbn zeta.
  rewrite (run_installMissingDependencies_found toLowerCase areSameExtensions localize h w
             Hmissing Hnonempty Hgallery Hpage Hinstalls Hawait).
  cbn [outcome trace final].
  rewrite (promiseAll_pending promises tl Hnone Hpending).
  pose proof (getUninstalledMissingDependencies_calls toLowerCase areSameExtensions h w)
    as Hcalls.
  destruct (found_trace_filters
              (trace (run h (getUninstalledMissingDependencies toLowerCase
                               areSameExtensions) w))
              (Ev (QueryGallery (IQueryOptions.Build missing (length missing)))
                 (Fulfilled pager))
              (IPager.firstPage pager) promises tl [] Hcalls eq_refl eq_refl) as [Hi Hn].
  rewrite Hi, Hn. cbn [filter]. rewrite app_nil_r. now repeat split.
Qed.

(** X7.  How [checkAndInstallMissingDependencies] ends depends on the
    listing alone: it returns whenever the list was computed, also when the
    installation it started throws or stays suspended; it throws only what
    the listing throws. *)
Theorem checkAndInstallMissingDependencies_outcome (w : W) :
  outcome (run h (checkAndInstallMissingDependencies toLowerCase areSameExtensions localize) w)
  = match outcome (run h (getUninstalledMissingDependencies toLowerCase
                            areSameExtensions) w) with
    | Returned _ => Returned tt
    | Threw e => Threw e
    | Suspended => Suspended
    end.
Proof.
  unfold checkAndInstallMissingDependencies. sequence.
  destruct (run h (getUninstalledMissingDependencies toLowerCase areSameExtensions) w)
    as [[missing | e |] t w0]; cbn [outcome trace final]; try reflexivity.
  destruct (Nat.ltb 0 (length missing)); cbn zeta; [| reflexivity].
  rewrite run_pbind, run_call. cbn [outcome trace final].
  destruct (respond h (GetValue autoInstallMissingDependencies) w0) as [[|] w1];
    cbn [fst snd]; [rewrite run_start |]; reflexivity.
Qed.

(** X8.  [installMissingDependencies] computes the list again.  When
    [checkAndInstallMissingDependencies] has found dependencies missing and
    the setting on, and the second listing finds none, the automatic check
    ends with the notification that there are no missing dependencies. *)
Theorem checkAndInstallMissingDependencies_lists_twice
  (w w1 : W) (missing : list string) :
  outcome (run h (getUninstalledMissingDependencies toLowerCase areSameExtensions) w)
  = Returned missing ->
  missing <> [] ->
  respond h (GetValue "extensions.autoInstallMissingDependencies")
    (final (run h (getUninstalledMissingDependencies toLowerCase areSameExtensions) w))
  = (true, w1) ->
  outcome (run h (getUninstalledMissingDependencies toLowerCase areSameExtensions) w1)
  = Returned [] ->
  let first := run h (getUninstalledMissingDependencies toLowerCase areSameExtensions) w in
  let second := run h (getUninstalledMissingDependencies toLowerCase areSameExtensions) w1 in
  let r :=
    run h (checkAndInstallMissingDependencies toLowerCase areSameExtensions localize) w in
  trace r =
    trace first ++
    Ev (GetValue "extensions.autoInstallMissingDependencies") true
    :: Started (installMissingDependencies toLowerCase areSameExtensions localize)
    :: trace second ++
    [Ev (NotifyInfo (localize "no missing deps" "There are no missing dependencies to install."))
       tt] /\
  filter is_notification (trace r) =
    [Ev (NotifyInfo (localize "no missing deps" "There are no missing dependencies to install."))
       tt] /\
  filter is_gallery_query (trace r) = [].
Proof.
  intros Hmissing Hnonempty Hflag Hsecond. cbn zeta.
  destruct (listing_filters w) as [Hn [Hg _]]. cbn zeta in Hn, Hg.
  destruct (listing_filters w1) as [Hn1 [Hg1 _]]. cbn zeta in Hn1, Hg1.
  unfold checkAndInstallMissingDependencies. sequence.
  fold autoInstallMissingDependencies in *.
  destruct (run h (getUninstalledMissingDependencies toLowerCase areSameExtensions) w)
    as [o t w0].
  cbn [outcome trace final] in *. subst o.
  replace (Nat.ltb 0 (length missing)) with true
    by (destruct missing; [contradiction | reflexivity]).
  cbn zeta. rewrite run_pbind, run_call, Hflag. cbn [outcome trace final fst snd].
  rewrite run_start. cbn [outcome trace final].
  unfold installMissingDependencies. sequence.
  destruct (run h (getUninstalledMissingDependencies toLowerCase areSameExtensions) w1)
    as [o1 t1 w2].
  cbn [outcome trace final] in *. subst o1.
  cbn [truthy_length length Nat.eqb negb]. cbn zeta. rewrite run_call.
  cbn [outcome trace final]. unfold noMissingDependenciesMessage.
  destruct (fst (respond h (NotifyInfo (localize "no missing deps" _)) w2)).
  cbn [app]. rewrite !filter_app. cbn [filter is_notification is_gallery_query].
  rewrite !filter_app, Hn, Hg, Hn1, Hg1. now repeat split.
Qed.

(** X9.  When the list of uninstalled missing dependencies is empty,
    [checkAndInstallMissingDependencies] returns after the listing without
    reading the setting. *)
Theorem checkAndInstallMissingDependencies_nothing_missing (w : W) :
  outcome (run h (getUninstalledMissingDependencies toLowerCase areSameExtensions) w)
  = Returned [] ->
  let listing := run h (getUninstalledMissingDependencies toLowerCase areSameExtensions) w in
  let r :=
    run h (checkAndInstallMissingDependencies toLowerCase areSameExtensions localize) w in
  r = {| outcome := Returned tt; trace := trace listing; final := final listing |} /\
  filter is_setting_read (trace r) = [].
Proof.
  intros Hempty. cbn zeta.
  assert (Hs : filter is_setting_read
                 (trace (run h (getUninstalledMissingDependencies toLowerCase
                                  areSameExtensions) w)) = []).
  { apply filter_none. intros ev Hev.
    assert (Hok : negb (is_setting_read ev) = true).
    { apply (calls_only_run (fun ev => negb (is_setting_read ev)) h _ w ev
               (getUninstalledMissingDependencies_calls_only toLowerCase areSameExtensions
                  (fun ev => negb (is_setting_read ev))
                  (fun _ => eq_refl) (fun _ => eq_refl)) Hev). }
    now apply negb_true_iff in Hok. }
  unfold checkAndInstallMissingDependencies. sequence.
  destruct (run h (getUninstalledMissingDependencies toLowerCase areSameExtensions) w)
    as [o t w0].
  cbn [outcome trace final] in *. subst o.
  cbn [length Nat.ltb Nat.leb run outcome trace final]. rewrite app_nil_r.
  split; [reflexivity | assumption].
Qed.

End More.

(** ** The life of the contribution *)

Section Life.

Variable toLowerCase : string -> string.
Variable areSameExtensions : IExtensionIdentifier.t -> IExtensionIdentifier.t -> bool.
Variable localize : string -> string -> string.

Abbreviation install := (installMissingDependencies toLowerCase areSameExtensions localize).
Abbreviation check :=
  (checkAndInstallMissingDependencies toLowerCase areSameExtensions localize).
Abbreviation listener := (onDidChangeConfiguration toLowerCase areSameExtensions localize).
Abbreviation step' := (step toLowerCase areSameExtensions localize).
Abbreviation reachable' := (reachable toLowerCase areSameExtensions localize).




(** The steps keep every activation within what its origin is granted, when
    the three programs the contribution starts are. *)
Lemma step_permitted (allowed : Origin -> Event -> bool) (wb wb' : Workbench) :
  calls_only (allowed (CommandInvocation installMissingDepenencies)) install ->
  calls_only (allowed AutomaticCheck) (Spawn check (Ret tt)) ->
  consistent toLowerCase areSameExtensions localize wb ->
  permitted allowed wb -> step' wb wb' -> permitted allowed wb'.
Proof.
  intros Hinstall Hcheck Hwb Hp Hstep.
  assert (Hactivate : forall o p w,
            permitted allowed w -> calls_only (allowed o) p ->
            permitted allowed (activate o p w)).
  { intros o p w [Ht Hl] Hop. split; cbn [activate tasks origins log].
    - intros a q Hin. apply in_app_or in Hin. destruct Hin as [Hin | [[= <- <-] | []]].
      + destruct (Ht a q Hin) as [o' [Ho' Hq]]. exists o'.
        split; [now apply nth_error_snoc_old | assumption].
      + exists o. split; [apply nth_error_snoc_new | assumption].
    - intros a ev Hin. destruct (Hl a ev Hin) as [o' [Ho' Hev]]. exists o'.
      split; [now apply nth_error_snoc_old | assumption]. }
  assert (Hresume : forall n a p0 p more what,
            nth_error (tasks wb) n = Some (a, p0) ->
            (forall o, calls_only (allowed o) p0 ->
                       allowed o what = true /\ calls_only (allowed o) p /\
                       forall q, In q more -> calls_only (allowed o) q) ->
            permitted allowed (resume n a p more what wb)).
  { intros n a p0 p more what Hnth Hnext. destruct Hp as [Ht Hl].
    destruct (Ht a p0 (nth_error_In _ _ Hnth)) as [o [Ho Hp0]].
    destruct (Hnext o Hp0) as [Hwhat [Hp' Hmore]].
    split; cbn [resume tasks origins log].
    - intros a' q Hin. apply in_app_or in Hin. destruct Hin as [Hin | Hin].
      + apply update_In in Hin. destruct Hin as [[= -> ->] | Hin]; [now exists o |].
        now apply Ht.
      + apply in_map_iff in Hin. destruct Hin as [q' [[= <- <-] Hq']].
        exists o. split; [assumption | now apply Hmore].
    - intros a' ev Hin. apply in_app_or in Hin.
      destruct Hin as [Hin | [[= <- <-] | []]]; [now apply Hl | now exists o]. }
  destruct Hstep as [wb Hc | wb | wb e | wb id handler Hlookup
                    | wb n a X c k r Hnth | wb n a child k Hnth].
  - unfold construct. apply Hactivate; [| assumption].
    destruct Hp as [Ht Hl]. split; assumption.
  - destruct Hp as [Ht Hl]. split; assumption.
  - pose proof (listeners_subscribed Hwb) as Hls. revert Hp Hls.
    generalize (listeners wb) as ls. clear Hresume Hwb. revert wb.
    intros wb ls. revert wb. induction ls as [| l ls IH]; intros wb Hp Hls; [assumption |].
    cbn [fold_left]. apply IH; [| intros l' Hl'; apply Hls; now right].
    apply Hactivate; [assumption |]. rewrite (Hls l (or_introl eq_refl)).
    unfold onDidChangeConfiguration.
    destruct (affectsConfiguration e autoInstallMissingDependencies); [assumption | exact I].
  - apply lookup_In in Hlookup.
    destruct (commands_registered Hwb _ _ Hlookup) as [-> ->]. now apply Hactivate.
  - apply Hresume with (p0 := Vis c k); [assumption |].
    intros o Ho. destruct (Ho r) as [Hc Hk]. repeat split; [assumption .. |].
    intros q [].
  - apply Hresume with (p0 := Spawn child k); [assumption |].
    intros o [Hs [Hchild Hk]]. repeat split; [assumption .. |].
    intros q [<- | []]. assumption.
Qed.

Lemma reachable_permitted (allowed : Origin -> Event -> bool) (wb : Workbench) :
  calls_only (allowed (CommandInvocation installMissingDepenencies)) install ->
  calls_only (allowed AutomaticCheck) (Spawn check (Ret tt)) ->
  reachable' wb -> permitted allowed wb.
Proof.
  intros Hinstall Hcheck. induction 1 as [| wb wb' Hreach IH Hstep].
  - split; cbn [startup tasks log]; intros a x [].
  - apply (step_permitted Hinstall Hcheck (reachable_consistent Hreach) IH Hstep).
Qed.

(** X12.  In every workbench the steps lead to, the setting is read by
    automatic checks only: an invocation of the command never reads
    [extensions.autoInstallMissingDependencies] and installs whatever it
    says. *)
Theorem command_ignores_setting (wb : Workbench) :
  reachable' wb ->
  forall a ev,
    In (a, ev) (log wb) ->
    is_setting_read ev = true ->
    nth_error (origins wb) a = Some AutomaticCheck.
Proof.
  intros Hreach a ev Hin Hread.
  assert (Hp : permitted besides_setting wb).
  { apply reachable_permitted; [| | assumption].
    - apply installMissingDependencies_calls_only; reflexivity.
    - split; [reflexivity | split; [| exact I]].
      apply checkAndInstallMissingDependencies_calls_only; reflexivity. }
  destruct (log_permitted Hp a ev Hin) as [o [Ho Hev]].
  destruct o as [id |]; [| assumption].
  cbn [besides_setting] in Hev. rewrite Hread in Hev. discriminate.
Qed.

(** X13.  In every workbench the steps lead to, no activation has called
    [reloadWindow]: the window is reloaded by the action of the notification
    only, when it is run. *)
Theorem never_reloads_the_window (wb : Workbench) :
  reachable' wb ->
  (forall a ev, In (a, ev) (log wb) -> is_reload ev = false) /\
  forall (W : Type) (h : Host W) (w : W),
    map (fun action => trace (run h (invoke (Action.actionCallback action)) w))
      (INotification.primary (finishedNotification localize))
    = [[Ev ReloadWindow (fst (respond h ReloadWindow w))]].
Proof.
  intros Hreach. split.
  - intros a ev Hin.
    assert (Hp : permitted besides_reload wb).
    { apply reachable_permitted; [| | assumption].
      - apply installMissingDependencies_calls_only; reflexivity.
      - split; [reflexivity | split; [| exact I]].
        apply checkAndInstallMissingDependencies_calls_only; reflexivity. }
    destruct (log_permitted Hp a ev Hin) as [o [_ Hev]].
    unfold besides_reload in Hev. now apply negb_true_iff in Hev.
  - intros W h w. cbn [finishedNotification INotification.primary map Action.actionCallback
                        invoke].
    rewrite run_call. reflexivity.
Qed.


End Life.

(** ** Further checks on the sample workbench *)


Lemma getUninstalledMissingDependencies_throws_witness :
  (outcome (run Sample.host Sample.getUninstalled Sample.hostless)
   = Threw (ServiceFailure "no extension host") <->
   fst (respond Sample.host GetExtensions Sample.hostless)
   = Rejected (ServiceFailure "no extension host") \/
   (exists R,
       fst (respond Sample.host GetExtensions Sample.hostless) = Fulfilled R /\
       fst (respond Sample.host QueryLocal
              (snd (respond Sample.host GetExtensions Sample.hostless)))
       = Rejected (ServiceFailure "no extension host"))) /\
  (fst (respond Sample.host GetExtensions Sample.hostless)
   = Rejected (ServiceFailure "no extension host") ->
   trace (run Sample.host Sample.getUninstalled Sample.hostless)
   = [Ev GetExtensions (Rejected (ServiceFailure "no extension host"))]).
Proof.
  exact (getUninstalledMissingDependencies_throws Sample.toLowerCase Sample.areSameExtensions
           Sample.host Sample.hostless (ServiceFailure "no extension host")).
Defined.

Lemma getUninstalledMissingDependencies_exact_witness :
  (respond Sample.host GetExtensions Sample.succeeding
   = (Fulfilled Sample.runningExtensions, Sample.succeeding) /\
   respond Sample.host QueryLocal Sample.succeeding
   = (Fulfilled Sample.localExtensions, Sample.succeeding)) /\
  exists uninstalled,
    run Sample.host Sample.getUninstalled Sample.succeeding =
    {| outcome := Returned uninstalled;
       trace := [Ev GetExtensions (Fulfilled Sample.runningExtensions);
                 Ev QueryLocal (Fulfilled Sample.localExtensions)];
       final := Sample.succeeding |} /\
    NoDup uninstalled /\
    forall id,
      In id uninstalled <->
      (exists extension deps,
          In extension Sample.runningExtensions /\
          IExtensionDescription.extensionDependencies extension = Some deps /\
          In id deps) /\
      (forall r,
          In r Sample.runningExtensions ->
          Sample.toLowerCase id <>
          Sample.toLowerCase
            (ExtensionIdentifier.value (IExtensionDescription.identifier r))) /\
      (forall l,
          In l Sample.localExtensions ->
          Sample.areSameExtensions (IExtension.identifier l)
            (IExtensionIdentifier.Build id None)
          = false).
Proof.
  split; [split; reflexivity |].
  exact (getUninstalledMissingDependencies_exact Sample.toLowerCase Sample.areSameExtensions
           Sample.host Sample.succeeding (w1 := Sample.succeeding) (w2 := Sample.succeeding)
           (R := Sample.runningExtensions) (L := Sample.localExtensions) eq_refl eq_refl).
Defined.

Lemma installMissingDependencies_gallery_rejects_witness :
  (outcome (run Sample.host Sample.getUninstalled Sample.offline)
   = Returned ["pub.B"; "pub.b"] /\
   ["pub.B"; "pub.b"] <> [] /\
   respond Sample.host Sample.query
     (final (run Sample.host Sample.getUninstalled Sample.offline))
   = (Rejected (ServiceFailure "offline"), Sample.offline)) /\
  (run Sample.host Sample.install Sample.offline =
   {| outcome := Threw (ServiceFailure "offline");
      trace :=
        trace (run Sample.host Sample.getUninstalled Sample.offline) ++
        [Ev Sample.query (Rejected (ServiceFailure "offline"))];
      final := Sample.offline |} /\
   filter is_install (trace (run Sample.host Sample.install Sample.offline)) = [] /\
   filter is_notification (trace (run Sample.host Sample.install Sample.offline)) = []).
Proof.
  assert (Hne : ["pub.B"; "pub.b"] <> []) by discriminate.
  split; [repeat split; exact Hne |].
  exact (installMissingDependencies_gallery_rejects Sample.toLowerCase
           Sample.areSameExtensions Sample.localize Sample.host Sample.offline
           (w1 := Sample.offline) (missing := ["pub.B"; "pub.b"])
           (e := ServiceFailure "offline") eq_refl Hne eq_refl).
Defined.

Lemma listing_failure_propagates_witness :
  outcome (run Sample.host Sample.getUninstalled Sample.hostless)
  = Threw (ServiceFailure "no extension host") /\
  (run Sample.host Sample.install Sample.hostless =
   {| outcome := Threw (ServiceFailure "no extension host");
      trace := trace (run Sample.host Sample.getUninstalled Sample.hostless);
      final := final (run Sample.host Sample.getUninstalled Sample.hostless) |} /\
   run Sample.host Sample.check Sample.hostless =
   {| outcome := Threw (ServiceFailure "no extension host");
      trace := trace (run Sample.host Sample.getUninstalled Sample.hostless);
      final := final (run Sample.host Sample.getUninstalled Sample.hostless) |} /\
   filter is_notification (trace (run Sample.host Sample.getUninstalled Sample.hostless)) = []).
Proof.
  split; [reflexivity |].
  exact (listing_failure_propagates Sample.toLowerCase Sample.areSameExtensions
           Sample.localize Sample.host Sample.hostless
           (e := ServiceFailure "no extension host") eq_refl).
Defined.

Lemma installMissingDependencies_install_pending_witness :
  (outcome (run Sample.host Sample.getUninstalled Sample.pending)
   = Returned ["pub.B"; "pub.b"] /\
   ["pub.B"; "pub.b"] <> [] /\
   respond Sample.host Sample.query
     (final (run Sample.host Sample.getUninstalled Sample.pending))
   = (Fulfilled Sample.found, Sample.pending) /\
   IPager.firstPage Sample.found <> [] /\
   installations Sample.host (IPager.firstPage Sample.found) Sample.pending
   = ([0], Sample.issuing Sample.pending) /\
   respond Sample.host (AwaitAll [0]) (Sample.issuing Sample.pending)
   = ([], Sample.issuing Sample.pending) /\
   (forall p e, In p [0] -> fate [] p <> Some (Rejects e)) /\
   (exists p, In p [0] /\ fate [] p = None)) /\
  (outcome (run Sample.host Sample.install Sample.pending) = Suspended /\
   trace (run Sample.host Sample.install Sample.pending) =
     trace (run Sample.host Sample.getUninstalled Sample.pending) ++
     Ev Sample.query (Fulfilled Sample.found)
     :: installCalls (IPager.firstPage Sample.found) [0] ++
     [Ev (AwaitAll [0]) []] /\
   filter is_install (trace (run Sample.host Sample.install Sample.pending))
   = installCalls (IPager.firstPage Sample.found) [0] /\
   filter is_notification (trace (run Sample.host Sample.install Sample.pending)) = []).
Proof.
  assert (Hne : ["pub.B"; "pub.b"] <> []) by discriminate.
  assert (Hpage : IPager.firstPage Sample.found <> []) by discriminate.
  assert (Hnone : forall p e, In p [0] -> fate [] p <> Some (Rejects e))
    by (intros p e _; discriminate).
  assert (Hpending : exists p, In p [0] /\ fate [] p = None)
    by (exists 0; split; [now left | reflexivity]).
  split; [repeat split; assumption |].
  exact (installMissingDependencies_install_pending Sample.toLowerCase
           Sample.areSameExtensions Sample.localize Sample.host Sample.pending
           (w1 := Sample.pending) (w2 := Sample.issuing Sample.pending)
           (w3 := Sample.issuing Sample.pending) (missing := ["pub.B"; "pub.b"])
           (pager := Sample.found) (promises := [0]) (tl := [])
           eq_refl Hne eq_refl Hpage eq_refl eq_refl Hnone Hpending).
Defined.

(** The check returns although the installation it started throws. *)
Lemma checkAndInstallMissingDependencies_outcome_witness :
  outcome (run Sample.host Sample.check Sample.failing) = Returned tt /\
  outcome (run Sample.host Sample.install Sample.failing)
  = Threw (ServiceFailure "install failed").
Proof.
  split; [| reflexivity].
  exact (eq_trans
           (checkAndInstallMissingDependencies_outcome Sample.toLowerCase
              Sample.areSameExtensions Sample.localize Sample.host Sample.failing)
           eq_refl).
Defined.

Lemma checkAndInstallMissingDependencies_lists_twice_witness :
  (outcome (run Sample.changing Sample.getUninstalled Sample.succeeding)
   = Returned ["pub.B"; "pub.b"] /\
   ["pub.B"; "pub.b"] <> [] /\
   respond Sample.changing (GetValue "extensions.autoInstallMissingDependencies")
     (final (run Sample.changing Sample.getUninstalled Sample.succeeding))
   = (true, Sample.starting Sample.succeeding) /\
   outcome (run Sample.changing Sample.getUninstalled (Sample.starting Sample.succeeding))
   = Returned []) /\
  (trace (run Sample.changing Sample.check Sample.succeeding) =
     trace (run Sample.changing Sample.getUninstalled Sample.succeeding) ++
     Ev (GetValue "extensions.autoInstallMissingDependencies") true
     :: Started Sample.install
     :: trace (run Sample.changing Sample.getUninstalled (Sample.starting Sample.succeeding)) ++
     [Ev (NotifyInfo
            (Sample.localize "no missing deps" "There are no missing dependencies to install."))
        tt] /\
   filter is_notification (trace (run Sample.changing Sample.check Sample.succeeding)) =
     [Ev (NotifyInfo
            (Sample.localize "no missing deps" "There are no missing dependencies to install."))
        tt] /\
   filter is_gallery_query (trace (run Sample.changing Sample.check Sample.succeeding)) = []).
Proof.
  assert (Hne : ["pub.B"; "pub.b"] <> []) by discriminate.
  split; [repeat split; exact Hne |].
  exact (checkAndInstallMissingDependencies_lists_twice Sample.toLowerCase
           Sample.areSameExtensions Sample.localize Sample.changing Sample.succeeding
           (w1 := Sample.starting Sample.succeeding) (missing := ["pub.B"; "pub.b"])
           eq_refl Hne eq_refl eq_refl).
Defined.

Lemma checkAndInstallMissingDependencies_nothing_missing_witness :
  outcome (run Sample.host Sample.getUninstalled Sample.complete) = Returned [] /\
  (run Sample.host Sample.check Sample.complete =
   {| outcome := Returned tt;
      trace := trace (run Sample.host Sample.getUninstalled Sample.complete);
      final := final (run Sample.host Sample.getUninstalled Sample.complete) |} /\
   filter is_setting_read (trace (run Sample.host Sample.check Sample.complete)) = []).
Proof.
  split; [reflexivity |].
  exact (checkAndInstallMissingDependencies_nothing_missing Sample.toLowerCase
           Sample.areSameExtensions Sample.localize Sample.host Sample.complete eq_refl).
Defined.



Lemma command_ignores_setting_witness :
  (reachable Sample.toLowerCase Sample.areSameExtensions Sample.localize
     Sample.afterFirstCheck /\
   In (0, Ev (GetValue "extensions.autoInstallMissingDependencies") true)
     (log Sample.afterFirstCheck) /\
   is_setting_read (Ev (GetValue "extensions.autoInstallMissingDependencies") true) = true) /\
  nth_error (origins Sample.afterFirstCheck) 0 = Some AutomaticCheck.
Proof.
  assert (Hreach : reachable Sample.toLowerCase Sample.areSameExtensions Sample.localize
                     Sample.afterFirstCheck)
    by (apply play_reachable; constructor).
  assert (Hin : In (0, Ev (GetValue "extensions.autoInstallMissingDependencies") true)
                  (log Sample.afterFirstCheck)).
  { apply nth_error_In with (n := 3). vm_compute. reflexivity. }
  split; [repeat split; assumption |].
  exact (command_ignores_setting Hreach 0
           (Ev (GetValue "extensions.autoInstallMissingDependencies") true) Hin eq_refl).
Defined.

Lemma never_reloads_the_window_witness :
  reachable Sample.toLowerCase Sample.areSameExtensions Sample.localize
    Sample.afterFirstCheck /\
  ((forall a ev, In (a, ev) (log Sample.afterFirstCheck) -> is_reload ev = false) /\
   forall (W : Type) (h : Host W) (w : W),
     map (fun action => trace (run h (invoke (Action.actionCallback action)) w))
       (INotification.primary (finishedNotification Sample.localize))
     = [[Ev ReloadWindow (fst (respond h ReloadWindow w))]]).
Proof.
  assert (Hreach : reachable Sample.toLowerCase Sample.areSameExtensions Sample.localize
                     Sample.afterFirstCheck)
    by (apply play_reachable; constructor).
  split; [exact Hreach |].
  exact (never_reloads_the_window Hreach).
Defined.

